(** * Label balancer and augmentation scheduler: a shallow embedding

    This development embeds the two Python modules of the repository,
    [utils.py] (the geometric transform helpers) and [label_balancer.py]
    (the per-label scheduler [DataAugmentation] and the orchestrator
    [LabelBalancer]), and proves properties of them.

    Conventions of the embedding:
    - Python integers are [Z]; loop ranges are lists of [nat].
    - The zoom factor carried by the scheduler is a binary64 float (the
      kernel's primitive floats), so that [fact += 0.3] rounds as it does
      in Python; the transform helpers receive its exact rational value.
    - Inside the transform helpers and in [LabelBalancer] the float
      arithmetic is read over exact rationals ([Q]); the sampling weights
      are given a second, binary64 reading as well, and the two are
      compared.
    - An image is represented by its shape (rows, columns): every OpenCV
      primitive used by the code determines the shape of its result from
      the shape of its argument, independently of pixel values.
    - A directory listing is a list of file names; a dictionary is an
      association list in insertion order (Python dictionaries iterate in
      insertion order and [sorted] is stable).
    - The content of the files is an input: [imread] gives the shape of
      the image a path decodes to, or nothing when [cv.imread] returns
      [None].
    - Exceptions that escape a function are values of [PyError]. *)

From Stdlib Require Import Floats.PrimFloat Floats.FloatOps Floats.SpecFloat.
From Stdlib Require Import Strings.String Strings.Ascii.
From Stdlib Require Import Numbers.DecimalString Numbers.DecimalNat.
From Stdlib Require Import ZArith QArith Qround Lia Lqa Bool List.
From Stdlib Require Import Sorting.Sorted Sorting.Permutation.
Import ListNotations.

Open Scope Z_scope.

Set Warnings "-inexact-float".

(** ** utils.py *)

Module Utils.

(** [img.shape] of a three-channel raster: rows first, then columns. *)
Record Image := mkImage { rows : Z; cols : Z }.

(** Python slice [a:b] on an axis of length [n]: a negative bound counts
    from the end, every bound is clamped to [0, n], and an inverted range
    is empty. *)
Definition slice_bound (n i : Z) : Z :=
  if i <? 0 then Z.max 0 (i + n) else Z.min i n.

Definition slice_len (n a b : Z) : Z :=
  Z.max 0 (slice_bound n b - slice_bound n a).

(** [cvRound]: round to nearest, ties to even. *)
Definition cvRound (q : Q) : Z :=
  let f := Qfloor q in
  match Qcompare (q - inject_Z f) (1 # 2) with
  | Lt => f
  | Gt => f + 1
  | Eq => if Z.even f then f else f + 1
  end.

(** [cv.copyMakeBorder(img, top, bottom, left, right, ...)]. *)
Definition copyMakeBorder (img : Image) (top bottom left right : Z) : Image :=
  mkImage (rows img + top + bottom) (cols img + left + right).

(** [cv.flip(img, 1)] mirrors the column axis. *)
Definition flip (img : Image) : Image := img.

(** [cv.warpAffine(img, matrix, (col, row))]: the result has the requested
    size whatever the matrix is. *)
Definition warpAffine (img : Image) (centerx centery angle : Z) (dcols drows : Z)
  : Image := mkImage drows dcols.

(** [cv.resize(img, None, fx=f, fy=f)]: the destination size is
    [(round (fx * cols), round (fy * rows))]; an empty destination raises. *)
Definition resize (img : Image) (fx fy : Q) : option Image :=
  let c := cvRound (fx * inject_Z (cols img)) in
  let r := cvRound (fy * inject_Z (rows img)) in
  if (0 <? c) && (0 <? r) then Some (mkImage r c) else None.

(** [ceil((coord-1)/2.0)].  The conversion of [coord-1] to a double and
    its division by 2.0 are exact as long as [|coord-1| <= 2^53], which
    holds of every array dimension; the function is read over exact
    rationals. *)
Definition Get_center (coord : Z) : Z :=
  Qceiling (inject_Z (coord - 1) / 2).

Definition Pad_img (img : Image) : Image :=
  let padding_lr := Qfloor (inject_Z (cols img) / 2) in
  let padding_tb := Qfloor (inject_Z (rows img) / 2) in
  copyMakeBorder img padding_tb padding_tb padding_lr padding_lr.

Definition Flip_img (img : Image) : Image := flip img.

Definition Rotate_img (img : Image) (THETA : Z) : Image :=
  let centerx := Get_center (cols img) in
  let centery := Get_center (rows img) in
  warpAffine img centerx centery THETA (cols img) (rows img).

Definition Upsample_img (img : Image) (FACT : Q) : option Image :=
  resize img FACT FACT.

(** [img[centery-ogy:centery+ogy, centerx-ogx:centerx+ogx]] *)
Definition Center_crop (img og_img : Image) : Image :=
  let centerx := Get_center (cols img) in
  let centery := Get_center (rows img) in
  let ogx := Get_center (cols og_img) in
  let ogy := Get_center (rows og_img) in
  mkImage (slice_len (rows img) (centery - ogy) (centery + ogy))
          (slice_len (cols img) (centerx - ogx) (centerx + ogx)).

(** [Data_augmentation] after [cv.imread], on the decoded image; [None]
    stands for the exception raised by [cv.resize].  The call with its
    [cv.imread] is [Balancer.Data_augmentation_call]. *)
Definition Data_augmentation (img : Image) (THETA : Z) (FACT : Q) (flipped : bool)
  : option Image :=
  if Bool.eqb flipped false then
    let pad := Pad_img img in
    let rot := Rotate_img pad THETA in
    match Upsample_img rot FACT with
    | Some up => Some (Center_crop up img)
    | None => None
    end
  else
    let flip := Flip_img img in
    let pad := Pad_img flip in
    let rot := Rotate_img pad THETA in
    match Upsample_img rot FACT with
    | Some up => Some (Center_crop up img)
    | None => None
    end.

End Utils.

(** ** label_balancer.py: configuration, strings, dictionaries *)

Module Balancer.

Inductive PyError :=
| ZeroDivisionError
| UnboundLocalError (name : string)
| AttributeError
| cv2_error.

(** A computation that may raise. *)
Inductive Res (A : Type) :=
| Ok (a : A)
| Raise (e : PyError).
Arguments Ok {A} a.
Arguments Raise {A} e.

Definition bind {A B : Type} (c : Res A) (k : A -> Res B) : Res B :=
  match c with Ok a => k a | Raise e => Raise e end.

Notation "x <- c ;; k" := (bind c (fun x => k))
  (at level 61, c at next level, right associativity).

(** The exact rational value of a double; an infinity or a NaN has none. *)
Definition float_value (f : float) : option Q :=
  match Prim2SF f with
  | S754_zero _ => Some 0%Q
  | S754_finite s m e =>
      let n := if s then Z.neg m else Z.pos m in
      Some (if 0 <=? e then inject_Z (n * 2 ^ e) else n # Z.to_pos (2 ^ (- e)))
  | _ => None
  end.

(** [float(n)] for an integer: the nearest double, ties to even. *)
Definition float_of_Z (n : Z) : float :=
  SF2Prim (binary_normalize prec emax n 0 false).

(** The module-level hyperparameters.  [TOTAL_MULTIPLIER] is evaluated once,
    when the module is loaded, from the default [MULTIPLIER]. *)
Record Config := mkConfig {
  THETA : Z;
  FACT : float;
  MULTIPLIER : Z;
  TOTAL_MULTIPLIER : Z
}.

Definition default_config : Config :=
  mkConfig 5 1.3%float 6 ((6 * 2) + 1).

(** The [__main__] block rebinds [THETA], [FACT] and [MULTIPLIER] from the
    command line and leaves [TOTAL_MULTIPLIER] as it was.  [--fact] is
    parsed as an integer; it is held here as the double it becomes at the
    first [fact += 0.3], the value [cv.resize] is given being the same. *)
Definition cli_config (theta fact multiplier : option Z) : Config :=
  mkConfig (match theta with Some t => t | None => 5 end)
           (match fact with Some f => float_of_Z f | None => 1.3%float end)
           (match multiplier with Some m => m | None => 6 end)
           (TOTAL_MULTIPLIER default_config).

(** [str(n)] for a non-negative integer. *)
Definition str (n : nat) : string := NilEmpty.string_of_uint (Nat.to_uint n).

(** [s.split("_")[0]]: the text before the first underscore (all of [s]
    when it has none). *)
Fixpoint split_head (s : string) : string :=
  match s with
  | EmptyString => EmptyString
  | String c s' =>
      if Ascii.eqb c "_" then EmptyString else String c (split_head s')
  end.

(** A path built by [os.path.join(directory, name)] from a directory and a
    listing entry; [os.path.basename] gives the entry back. *)
Record Path := path_join { path_dirname : string; path_basename : string }.

(** [range(n)] *)
Definition range (n : Z) : list nat := seq 0 (Z.to_nat n).

(** Dictionaries keyed by strings, in insertion order. *)
Section Dict.
Context {V : Type}.

Fixpoint dict_get (k : string) (d : list (string * V)) : option V :=
  match d with
  | [] => None
  | (k', v) :: d' => if String.eqb k k' then Some v else dict_get k d'
  end.

(** [d[k] = v]: an existing key keeps its position, a new key goes last. *)
Fixpoint dict_set (k : string) (v : V) (d : list (string * V)) : list (string * V) :=
  match d with
  | [] => [(k, v)]
  | (k', v') :: d' =>
      if String.eqb k k' then (k, v) :: d' else (k', v') :: dict_set k v d'
  end.
End Dict.

(** [site_path[k]].  Both dictionaries of the scheduler always hold the
    same keys (lemma [count_files_keys]), so the lookup cannot raise; the
    empty list stands for the unreachable [KeyError]. *)
Definition site_paths (k : string) (site_path : list (string * list Path)) : list Path :=
  match dict_get k site_path with Some l => l | None => [] end.

(** [SortDict]: [sorted(dict.items(), key=lambda item: item[1])], a stable
    sort by value. *)
Fixpoint insert_item (x : string * Z) (l : list (string * Z)) : list (string * Z) :=
  match l with
  | [] => [x]
  | y :: l' => if snd x <=? snd y then x :: y :: l' else y :: insert_item x l'
  end.

Fixpoint SortDict (dict : list (string * Z)) : list (string * Z) :=
  match dict with
  | [] => []
  | x :: d' => insert_item x (SortDict d')
  end.

(** Control flow of a loop body inside a function: fall through to the
    next iteration, [return] from the function, or leave it by an
    exception.  The state is kept in each case: what was written before an
    exception stays on disk. *)
Inductive Ctl (S : Type) :=
| Continue (s : S)
| Returned (s : S)
| Raised (e : PyError) (s : S).
Arguments Continue {S} s.
Arguments Returned {S} s.
Arguments Raised {S} e s.

Fixpoint for_each {A S : Type} (body : A -> S -> Ctl S) (l : list A) (s : S) : Ctl S :=
  match l with
  | [] => Continue s
  | a :: l' =>
      match body a s with
      | Continue s' => for_each body l' s'
      | Returned s' => Returned s'
      | Raised e s' => Raised e s'
      end
  end.

Definition final {S : Type} (c : Ctl S) : S :=
  match c with Continue s => s | Returned s => s | Raised _ s => s end.

(** ** label_balancer.py: [DataAugmentation] *)

(** One [cv.imwrite(new_destination, Data_augmentation(site, theta, fact,
    flipped))] that went through: the file written and the arguments its
    content was computed from. *)
Record Write := mkWrite {
  w_dest : Path;
  w_src : Path;
  w_theta : Z;
  w_fact : float;
  w_flipped : bool
}.

(** The running counter and the files written so far, oldest first. *)
Record Sched := mkSched { counter : Z; written : list Write }.

(** The per-image locals of the variant loop. *)
Record Vars := mkVars { switch : Z; theta : Z; fact : float; switch_ended : Z }.

Section Scheduler.
Variable cfg : Config.
(** [imread site] is the shape of [cv.imread(site)], or [None] when the
    file does not decode. *)
Variable imread : Path -> option Utils.Image.
Variable formatted_date : string.
Variable images_to_aumgment : Z.
Variables label_dir dest_dir label : string.

(** First loop: count the images of each site and collect their paths. *)
Definition count_file (st : list (string * Z) * list (string * list Path))
           (file_name : string)
  : list (string * Z) * list (string * list Path) :=
  let '(site_ids_count, site_path) := st in
  let full_file_path := path_join label_dir file_name in
  let site_id := split_head file_name in
  match dict_get site_id site_ids_count with
  | Some c =>
      (dict_set site_id (c + 1) site_ids_count,
       dict_set site_id (site_paths site_id site_path ++ [full_file_path]) site_path)
  | None =>
      (dict_set site_id 1 site_ids_count,
       dict_set site_id [full_file_path] site_path)
  end.

Definition count_files (image_list : list string)
  : list (string * Z) * list (string * list Path) :=
  fold_left count_file image_list ([], []).

Definition new_file_name (site : Path) (site_index i : nat) : string :=
  let basename := path_basename site in
  (split_head basename ++ "_D" ++ formatted_date ++ "_" ++ formatted_date
     ++ "_" ++ str site_index ++ "_" ++ str i ++ "_ROT_AUG_" ++ label ++ ".JPG")%string.

(** The call [Data_augmentation(site, theta, fact, flipped)]: [cv.imread]
    of the path, then the pipeline on the decoded image.  On a file that
    does not decode, [Pad_img] fails on [None.shape] and [cv.flip] rejects
    [None]; a zoom factor that is not a finite number is rejected by
    [cv.resize]. *)
Definition Data_augmentation_call (site : Path) (theta : Z) (fact : float)
           (flipped : bool) : Res Utils.Image :=
  match imread site with
  | None => Raise (if flipped then cv2_error else AttributeError)
  | Some img =>
      match float_value fact with
      | None => Raise cv2_error
      | Some zoom =>
          match Utils.Data_augmentation img theta zoom flipped with
          | Some augmented_img => Ok augmented_img
          | None => Raise cv2_error
          end
      end
  end.

(** [cv.imwrite(new_destination, augmented_img)] into the existing
    destination directory: an image without rows or without columns is
    refused with an exception. *)
Definition imwrite (new_destination : Path) (augmented_img : Utils.Image) : Res unit :=
  if (Utils.rows augmented_img <=? 0) || (Utils.cols augmented_img <=? 0)
  then Raise cv2_error else Ok tt.

(** Body of [for i in range(MULTIPLIER*2)]. *)
Definition variant_body (site : Path) (site_index : nat) (i : nat)
           (st : Sched * Vars) : Ctl (Sched * Vars) :=
  let '(s, v) := st in
  let new_destination := path_join dest_dir (new_file_name site site_index i) in
  if counter s >? images_to_aumgment then Returned (s, v)
  else
    let branch :=
      if switch v =? -1 then
        augmented_img <- Data_augmentation_call site (theta v) (fact v) false ;;
        _ <- imwrite new_destination augmented_img ;;
        Ok (mkSched (counter s + 1)
                    (written s ++ [mkWrite new_destination site (theta v) (fact v) false]))
      else if switch v =? 1 then
        augmented_img <- Data_augmentation_call site (theta v) (fact v) true ;;
        _ <- imwrite new_destination augmented_img ;;
        Ok (mkSched (counter s + 1)
                    (written s ++ [mkWrite new_destination site (theta v) (fact v) true]))
      else Ok s in
    match branch with
    | Raise e => Raised e (s, v)
    | Ok s' =>
        let switch' := switch v * -1 in
        let '(theta', fact') :=
          if switch_ended v mod 2 =? 0
          then (theta v + 5, (fact v + 0.3)%float)
          else (theta v, fact v) in
        Continue (s', mkVars switch' theta' fact' (switch_ended v + 1))
    end.

(** Body of [for site in site_path[element[0]]]. *)
Definition image_body (site : Path) (st : Sched * nat) : Ctl (Sched * nat) :=
  let '(s, site_index) := st in
  let v0 := mkVars (-1) (THETA cfg) (FACT cfg) 1 in
  match for_each (variant_body site site_index) (range (MULTIPLIER cfg * 2)) (s, v0) with
  | Continue (s', _) => Continue (s', S site_index)
  | Returned (s', _) => Returned (s', site_index)
  | Raised e (s', _) => Raised e (s', site_index)
  end.

(** Body of [for element in sorted_list]. *)
Definition site_body (site_path : list (string * list Path))
           (element : string * Z) (s : Sched) : Ctl Sched :=
  match for_each image_body (site_paths (fst element) site_path) (s, 0%nat) with
  | Continue (s', _) => Continue s'
  | Returned (s', _) => Returned s'
  | Raised e (s', _) => Raised e s'
  end.

(** The scheduler on the listing [image_list = os.listdir(label_dir)]. *)
Definition DataAugmentation_loop (image_list : list string) : Ctl Sched :=
  let '(site_ids_count, site_path) := count_files image_list in
  let sorted_list := SortDict site_ids_count in
  for_each (site_body site_path) sorted_list (mkSched 1 []).

Definition DataAugmentation (image_list : list string) : list Write :=
  written (final (DataAugmentation_loop image_list)).

End Scheduler.

(** ** label_balancer.py: [LabelBalancer] *)

(** Python true division [a / b], read over exact rationals. *)
Definition true_div (a b : Q) : Res Q :=
  if Qeq_bool b 0 then Raise ZeroDivisionError else Ok (a / b)%Q.

(** The complementary probabilities of the three labels of the deficient
    category, computed in both branches by the same statements:
    [p_label_i = 1 - count_split[i] / count], then each divided by their
    sum.  This is their reading over exact rationals. *)
Definition complement_probabilities (count_split : Z * Z * Z) (category_count : Z)
  : Res (Q * Q * Q) :=
  let '(n0, n1, n2) := count_split in
  q1 <- true_div (inject_Z n0) (inject_Z category_count) ;;
  let p_label_1 := (1 - q1)%Q in
  q2 <- true_div (inject_Z n1) (inject_Z category_count) ;;
  let p_label_2 := (1 - q2)%Q in
  q3 <- true_div (inject_Z n2) (inject_Z category_count) ;;
  let p_label_3 := (1 - q3)%Q in
  let p_total := (p_label_1 + p_label_2 + p_label_3)%Q in
  p_label_1 <- true_div p_label_1 p_total ;;
  p_label_2 <- true_div p_label_2 p_total ;;
  p_label_3 <- true_div p_label_3 p_total ;;
  Ok (p_label_1, p_label_2, p_label_3).



(** [np.random.choice([1, 2, 3], n, p=[p1, p2, p3], replace=True)]: each
    uniform draw [u] in [0, 1) selects the label whose cumulative weight
    interval holds it.  The draws are an input of the model. *)
Definition choose (p1 p2 p3 u : Q) : Z :=
  if Qle_bool p1 u then (if Qle_bool (p1 + p2)%Q u then 3 else 2) else 1.

Definition random_choice (n : Z) (p : Q * Q * Q) (uniform : nat -> Q) : list Z :=
  let '(p1, p2, p3) := p in
  map (fun j => choose p1 p2 p3 (uniform j)) (range n).

(** [sample.count(x)] *)
Definition count (sample : list Z) (x : Z) : Z :=
  Z.of_nat (count_occ Z.eq_dec sample x).

(** [[sample.count(1), sample.count(2), sample.count(3)]] *)
Definition tally (sample : list Z) : list Z :=
  [count sample 1; count sample 2; count sample 3].

(** The destination tree: for each index [0..5] of [dest_label_dirs], the
    names of the files present in that directory. *)
Definition Tree := nat -> list string.

Definition empty_tree : Tree := fun _ => [].

Definition update (i : nat) (f : list string -> list string) (t : Tree) : Tree :=
  fun j => if Nat.eqb j i then f (t j) else t j.

(** Creating or overwriting a file of a directory. *)
Definition add_file (directory : list string) (name : string) : list string :=
  if existsb (String.eqb name) directory then directory else directory ++ [name].

(** Modelled from the spec: [Copy_dir] is called by [LabelBalancer] but
    defined in neither source file.  The spec describes it as the
    structure-preserving copy of an original label directory into the
    destination tree: every file of the source directory is present in the
    destination afterwards. *)
Definition Copy_dir (src dest : list string) : list string :=
  fold_left add_file src dest.

(** The name under which a file is written. *)
Definition written_name (w : Write) : string := path_basename (w_dest w).

(** The files a scheduler run wrote, put into the listing of its
    destination directory. *)
Definition imwrite_all (ws : list Write) (directory : list string) : list string :=
  fold_left add_file (map written_name ws) directory.

Inductive Outcome :=
| Completed (out : Tree)
| AbortedInfeasible (out : Tree)
| Crashed (e : PyError) (out : Tree).

(** [os.path.join] of two directory components, as text. *)
Definition join (a b : string) : string := (a ++ "/" ++ b)%string.

Section LabelBalancer.
Variable cfg : Config.
Variable formatted_date : string.
Variables root_dir DATASET_NAME DEST_FOLDER : string.
(** [listing i] is [os.listdir(all_label_dirs[i])]. *)
Variable listing : nat -> list string.
(** The content of the files, as [cv.imread] finds it. *)
Variable imread : Path -> option Utils.Image.
(** The uniform draws consumed by the sampler. *)
Variable uniform : nat -> Q.
(** The destination tree before the run. *)
Variable dest0 : Tree.

Definition dataset_dir : string := join root_dir DATASET_NAME.
Definition dest_dir : string := join root_dir DEST_FOLDER.
Definition all_label_dirs (i : nat) : string := join dataset_dir (str (i + 1)).
Definition dest_label_dirs (i : nat) : string := join dest_dir (str (i + 1)).

Definition category_1_list : list (list string) := [listing 0; listing 1; listing 2]%nat.
Definition category_1_count : Z := Z.of_nat (length (concat category_1_list)).
Definition category_2_list : list (list string) := [listing 3; listing 4; listing 5]%nat.
Definition category_2_count : Z := Z.of_nat (length (concat category_2_list)).

Definition count_split (l : list (list string)) : Z * Z * Z :=
  (Z.of_nat (length (nth 0 l [])), Z.of_nat (length (nth 1 l [])),
   Z.of_nat (length (nth 2 l []))).

(** [executor.map(Copy_dir, all_label_dirs, dest_label_dirs)] *)
Definition copy_all (t : Tree) : Tree :=
  fold_left (fun t i => update i (Copy_dir (listing i)) t) (seq 0 6) t.

(** The three scheduler tasks submitted for the labels at indices
    [base], [base+1], [base+2].  They write into three different
    directories, so the order of their effects is immaterial.  An
    exception that ends a task is caught and printed when its future is
    read; the files the task wrote before it stay. *)
Definition label_task (base : nat) (images_to_aug_per_label : list Z) (i : nat)
  : list Write :=
  DataAugmentation cfg imread formatted_date
                   (nth i images_to_aug_per_label 0)
                   (all_label_dirs (i + base)) (dest_label_dirs (i + base))
                   ("L" ++ str (i + base + 1))%string
                   (listing (i + base)).

Definition augment_labels (base : nat) (images_to_aug_per_label : list Z) (t : Tree) : Tree :=
  fold_left
    (fun t i =>
       update (i + base) (imwrite_all (label_task base images_to_aug_per_label i)) t)
    (seq 0 (length images_to_aug_per_label)) t.

Definition LabelBalancer : Outcome :=
  if category_1_count >? category_2_count then
    (* Case #1 *)
    let images_to_augment := category_1_count - category_2_count in
    if category_1_count * TOTAL_MULTIPLIER cfg <? images_to_augment then
      AbortedInfeasible dest0
    else
      let dest1 := copy_all dest0 in
      let category_2_count_split := count_split category_2_list in
      match complement_probabilities category_2_count_split category_2_count with
      | Raise e => Crashed e dest1
      | Ok p =>
          let sample := random_choice images_to_augment p uniform in
          let images_to_aug_per_label := tally sample in
          (* print(images_to_aug_per_label[0] + category_1_count_split[0]) *)
          Crashed (UnboundLocalError "category_1_count_split") dest1
      end
  else
    (* Case #2 *)
    let images_to_augment := category_2_count - category_1_count in
    if category_1_count * TOTAL_MULTIPLIER cfg <? images_to_augment then
      AbortedInfeasible dest0
    else
      let dest1 := copy_all dest0 in
      let category_1_count_split := count_split category_1_list in
      match complement_probabilities category_1_count_split category_1_count with
      | Raise e => Crashed e dest1
      | Ok p =>
          let sample := random_choice images_to_augment p uniform in
          let images_to_aug_per_label := tally sample in
          Completed (augment_labels 0 images_to_aug_per_label dest1)
      end.

End LabelBalancer.

End Balancer.

(** * Vocabulary of the statements *)

Import Balancer.

(** ** The schedule of variants *)

Section ScheduleVocabulary.
Variable cfg : Config.
Variable formatted_date : string.
Variables label_dir dest_dir label : string.

(** What one iteration of the variant loop writes when the target has
    not been reached, and how it updates the per-image locals. *)
Definition emit (site : Path) (site_index i : nat) (v : Vars) : list Write :=
  let dst := path_join dest_dir (new_file_name formatted_date label site site_index i) in
  if switch v =? -1 then [mkWrite dst site (theta v) (fact v) false]
  else if switch v =? 1 then [mkWrite dst site (theta v) (fact v) true]
  else [].

Definition advance (v : Vars) : Vars :=
  if switch_ended v mod 2 =? 0
  then mkVars (switch v * -1) (theta v + 5) (fact v + 0.3)%float (switch_ended v + 1)
  else mkVars (switch v * -1) (theta v) (fact v) (switch_ended v + 1).

Fixpoint variants_from (site : Path) (site_index : nat) (v : Vars) (l : list nat)
  : list Write :=
  match l with
  | [] => []
  | i :: l' => emit site site_index i v ++ variants_from site site_index (advance v) l'
  end.

Definition image_variants (site : Path) (site_index : nat) : list Write :=
  variants_from site site_index (mkVars (-1) (THETA cfg) (FACT cfg) 1)
                (range (MULTIPLIER cfg * 2)).

Fixpoint images_variants (site_index : nat) (sites : list Path) : list Write :=
  match sites with
  | [] => []
  | site :: sites' =>
      image_variants site site_index ++ images_variants (S site_index) sites'
  end.

(** Everything the scheduler would write with an unlimited target if no
    variant failed. *)
Definition schedule (image_list : list string) : list Write :=
  let '(site_ids_count, site_path) := count_files label_dir image_list in
  flat_map (fun element => images_variants 0 (site_paths (fst element) site_path))
           (SortDict site_ids_count).

End ScheduleVocabulary.

(** Producing one planned variant: the transform, then the write. *)
Definition attempt (imread : Path -> option Utils.Image) (w : Write) : Res unit :=
  augmented_img <- Data_augmentation_call imread (w_src w) (w_theta w) (w_fact w)
                                          (w_flipped w) ;;
  imwrite (w_dest w) augmented_img.

Definition produced (imread : Path -> option Utils.Image) (w : Write) : bool :=
  match attempt imread w with Ok _ => true | Raise _ => false end.

(** The variants of a plan up to the first one that cannot be produced. *)
Fixpoint good_prefix (ok : Write -> bool) (xs : list Write) : list Write :=
  match xs with
  | [] => []
  | x :: xs' => if ok x then x :: good_prefix ok xs' else []
  end.

(** How a stretch of the loops ends. *)
Inductive Exit :=
| Finished
| Stopped
| Failed (e : PyError).

(** The three nested loops flattened to one pass over a plan [xs], with
    [W] already written: before each variant the counter [1 + |W|] is
    compared with the target, then the variant is attempted. *)
Fixpoint walk (target : Z) (run : Write -> Res unit) (xs W : list Write)
  : Exit * list Write :=
  match xs with
  | [] => (Finished, W)
  | x :: xs' =>
      if 1 + Z.of_nat (length W) >? target then (Stopped, W)
      else match run x with
           | Ok _ => walk target run xs' (W ++ [x])
           | Raise e => (Failed e, W)
           end
  end.

Definition exit_of {S : Type} (c : Ctl S) : Exit :=
  match c with
  | Continue _ => Finished
  | Returned _ => Stopped
  | Raised e _ => Failed e
  end.

(** [take target W xs]: the files on disk after a stretch of the loops that
    would write [xs] is run with [W] already written. *)
Definition take (target : Z) (W xs : list Write) : list Write :=
  W ++ firstn (Z.to_nat (target - Z.of_nat (length W))) xs.

Definition counter_ok (s : Sched) : Prop :=
  counter s = 1 + Z.of_nat (length (written s)).

Definition returned {S : Type} (c : Ctl S) : Prop :=
  match c with Returned _ => True | _ => False end.

Definition raised {S : Type} (c : Ctl S) : Prop :=
  match c with Raised _ _ => True | _ => False end.

(** The site id a written file was made from. *)
Definition site_of (w : Write) : string := split_head (path_basename (w_src w)).

(** The order in which the images of the site groups are gone through
    when the loops follow [sorted_list]: each site id once for every
    variant of every image it counts. *)
Definition visiting_order (cfg : Config) (sorted_list : list (string * Z)) : list string :=
  flat_map (fun element =>
              repeat (fst element)
                     (Z.to_nat (snd element) * Z.to_nat (MULTIPLIER cfg * 2)))
           sorted_list.

(** The zoom factor after [k] increments [fact += 0.3]. *)
Definition zoom_after (FACT : float) (k : nat) : float :=
  Nat.iter k (fun fact => (fact + 0.3)%float) FACT.

Definition alternating (v : Vars) : Prop := switch v = -1 \/ switch v = 1.

(** ** The grouping of a listing by site *)

Section GroupingVocabulary.
Variable label_dir : string.

Definition lengths (paths : list (string * list Path)) : list (string * Z) :=
  map (fun kl => (fst kl, Z.of_nat (length (snd kl)))) paths.

(** The files of a listing that belong to site [k], as paths. *)
Definition site_files (k : string) (files : list string) : list Path :=
  map (path_join label_dir) (filter (fun f => String.eqb (split_head f) k) files).

Record grouped (files : list string)
       (counts : list (string * Z)) (paths : list (string * list Path)) : Prop := {
  g_counts : counts = lengths paths;
  g_keys : NoDup (map fst paths);
  g_paths : forall k l, In (k, l) paths -> l = site_files k files;
  g_nonempty : forall k l, In (k, l) paths -> l <> [];
  g_cover : forall f, In f files -> In (split_head f) (map fst paths);
  g_total : length (concat (map snd paths)) = length files
}.

(** Every path filed under a site is one of the listing's files of that
    site, and the recorded count of a site is the number of those. *)
Definition site_count (image_list : list string) (p : Path) : Z :=
  Z.of_nat (length (filter (fun f => String.eqb (split_head f)
                                                (split_head (path_basename p)))
                           image_list)).

End GroupingVocabulary.

Definition count_le (a b : string * Z) : Prop := snd a <= snd b.

Fixpoint no_underscore (s : string) : Prop :=
  match s with
  | EmptyString => True
  | String c s' => c <> "_"%char /\ no_underscore s'
  end.

(** ** The outcome of a run *)

(** The per-label allocation [images_to_aug_per_label] computed in the
    second branch of [LabelBalancer]. *)
Definition allocation (listing : nat -> list string) (uniform : nat -> Q) : list Z :=
  match complement_probabilities (count_split (category_1_list listing))
                                 (category_1_count listing) with
  | Ok p =>
      tally (random_choice (category_2_count listing - category_1_count listing) p uniform)
  | Raise _ => []
  end.




(** The three numbers the validation print of the second branch
    announces for the labels 1, 2, 3:
    [images_to_aug_per_label[i] + category_1_count_split[i]]. *)
Definition announced (listing : nat -> list string) (uniform : nat -> Q) : list Z :=
  let '(n0, n1, n2) := count_split (category_1_list listing) in
  match allocation listing uniform with
  | [a0; a1; a2] => [a0 + n0; a1 + n1; a2 + n2]
  | _ => []
  end.

(** The schedule of the task submitted for the label of index [i]. *)
Definition task_plan (cfg : Config) (formatted_date root_dir DATASET_NAME DEST_FOLDER : string)
           (listing : nat -> list string) (i : nat) : list Write :=
  schedule cfg formatted_date (all_label_dirs root_dir DATASET_NAME i)
           (dest_label_dirs root_dir DEST_FOLDER i) ("L" ++ str (i + 1))%string (listing i).

(** Number of images under the labels 1, 2, 3 and under 4, 5, 6 of a tree. *)
Definition category_1_size (t : Tree) : Z :=
  Z.of_nat (length (t 0%nat) + length (t 1%nat) + length (t 2%nat)).

Definition category_2_size (t : Tree) : Z :=
  Z.of_nat (length (t 3%nat) + length (t 4%nat) + length (t 5%nat)).

(** The destination tree a run leaves behind, however it ends. *)
Definition tree_of (o : Outcome) : Tree :=
  match o with
  | Completed out => out
  | AbortedInfeasible out => out
  | Crashed _ out => out
  end.

(** ** Example inputs *)

(** Every file decodes to an image of 200 rows and 600 columns. *)
Definition all_decodable (p : Path) : option Utils.Image := Some (Utils.mkImage 200 600).

(** No file decodes. *)
Definition none_decodable (p : Path) : option Utils.Image := None.

(** Every file decodes to an image of a single row of 600 pixels. *)
Definition one_row_images (p : Path) : option Utils.Image := Some (Utils.mkImage 1 600).

(** [n] images of one site. *)
Definition site_images (site_id : string) (n : nat) : list string :=
  map (fun j => (site_id ++ "_" ++ str j ++ ".JPG")%string) (seq 0 n).

(** One image under label 1, twenty under label 4. *)
Definition small_first_category (i : nat) : list string :=
  match i with
  | 0%nat => site_images "23" 1
  | 3%nat => site_images "7" 20
  | _ => []
  end.

(** One image under label 1 and nothing else. *)
Definition empty_second_category (i : nat) : list string :=
  match i with
  | 0%nat => site_images "23" 1
  | _ => []
  end.

(** Scenario A of the specification: 40/30/30 images under the labels
    1, 2, 3 against 20/25/25 under the labels 4, 5, 6. *)
Definition scenario_A (i : nat) : list string :=
  match i with
  | 0%nat => site_images "a" 40
  | 1%nat => site_images "b" 30
  | 2%nat => site_images "c" 30
  | 3%nat => site_images "d" 20
  | 4%nat => site_images "e" 25
  | 5%nat => site_images "f" 25
  | _ => []
  end.

(** Uniform draws 0, 0.1, ..., 0.9, 0, 0.1, ... *)
Definition cycle_draws (j : nat) : Q := Z.of_nat (j mod 10) # 10.

(** No image under label 1, one under each of the labels 2 and 3, four
    under label 4. *)
Definition empty_first_label (i : nat) : list string :=
  match i with
  | 1%nat => site_images "23" 1
  | 2%nat => site_images "7" 1
  | 3%nat => site_images "9" 4
  | _ => []
  end.

(** Two images under label 1 and two under label 4. *)
Definition balanced_categories (i : nat) : list string :=
  match i with
  | 0%nat => site_images "23" 2
  | 3%nat => site_images "7" 2
  | _ => []
  end.

(** Three images under label 1, none under the labels 2 and 3, five under
    label 4. *)
Definition single_label_category (i : nat) : list string :=
  match i with
  | 0%nat => site_images "23" 3
  | 3%nat => site_images "7" 5
  | _ => []
  end.

(** One image under each of the labels 1 and 2, three under label 4. *)
Definition two_against_three (i : nat) : list string :=
  match i with
  | 0%nat => site_images "23" 1
  | 1%nat => site_images "7" 1
  | 3%nat => site_images "9" 3
  | _ => []
  end.

(** No image at all. *)
Definition empty_dataset (i : nat) : list string := [].

(** 20/25/25 images under the labels 1, 2, 3 and 100 under label 4. *)
Definition second_category_larger (i : nat) : list string :=
  match i with
  | 0%nat => site_images "a" 20
  | 1%nat => site_images "b" 25
  | 2%nat => site_images "c" 25
  | 3%nat => site_images "d" 100
  | _ => []
  end.

(** * Theorems *)

(** ** Facts about the transform helpers *)

Section TransformFacts.
Import Utils.

Lemma Get_center_half (n : Z) : Get_center n = n / 2.
Proof.
  unfold Get_center, Qceiling, Qfloor, Qdiv, Qopp, Qmult, Qinv, inject_Z; simpl.
  rewrite Z.mul_1_r.
  replace (Z.pos (1 * 2)) with 2 by reflexivity.
  assert (H := Z.div_mod n 2 ltac:(lia)).
  assert (H' := Z.div_mod (- (n - 1)) 2 ltac:(lia)).
  assert (B := Z.mod_pos_bound n 2 ltac:(lia)).
  assert (B' := Z.mod_pos_bound (- (n - 1)) 2 ltac:(lia)).
  lia.
Qed.

Lemma floor_half (n : Z) : Qfloor (inject_Z n / 2) = n / 2.
Proof.
  unfold Qfloor, Qdiv, Qmult, Qinv, inject_Z; simpl.
  rewrite Z.mul_1_r. reflexivity.
Qed.

Lemma cvRound_lower (q : Q) (n : Z) : (inject_Z n <= q)%Q -> n <= cvRound q.
Proof.
  intros H. apply Qfloor_resp_le in H. rewrite Qfloor_Z in H.
  unfold cvRound.
  destruct (Qcompare _ _); [destruct (Z.even _)| |]; lia.
Qed.

Lemma slice_len_inside (n a b : Z) :
  0 <= a -> a <= b -> b <= n -> slice_len n a b = b - a.
Proof.
  intros Ha Hab Hb. unfold slice_len, slice_bound.
  destruct (Z.ltb_spec b 0), (Z.ltb_spec a 0); lia.
Qed.

End TransformFacts.

(** ** The transform pipeline and the shape of its result *)

Section TransformShape.
Import Utils.

Lemma upsampled_axis (zoom : Q) (n : Z) :
  0 < n -> Z.even n = true -> (1 # 2 <= zoom)%Q ->
  n <= cvRound (zoom * inject_Z (n + (n / 2) + (n / 2))).
Proof.
  intros Hn He Hz. apply cvRound_lower.
  apply Z.even_spec in He. destruct He as [k ->].
  replace (2 * k / 2) with k by (symmetry; rewrite Z.mul_comm; apply Z.div_mul; lia).
  replace (2 * k + k + k) with (2 * (2 * k)) by lia.
  assert (Hm : 0 < 2 * k) by lia. revert Hm. generalize (2 * k). intros m Hm.
  destruct zoom as [a b]. unfold Qle, Qmult, inject_Z in *.
  cbn [Qnum Qden] in *. rewrite Pos.mul_1_r. nia.
Qed.

Lemma crop_axis (R n : Z) :
  0 < n -> Z.even n = true -> n <= R ->
  slice_len R (Get_center R - Get_center n) (Get_center R + Get_center n) = n.
Proof.
  intros Hn He HR. rewrite !Get_center_half.
  apply Z.even_spec in He. destruct He as [k ->].
  replace (2 * k / 2) with k by (symmetry; rewrite Z.mul_comm; apply Z.div_mul; lia).
  assert (H := Z.div_mod R 2 ltac:(lia)).
  assert (B := Z.mod_pos_bound R 2 ltac:(lia)).
  rewrite slice_len_inside; lia.
Qed.

Lemma crop_axis_odd (R n : Z) :
  0 < n -> Z.odd n = true -> n <= R ->
  slice_len R (Get_center R - Get_center n) (Get_center R + Get_center n) = n - 1.
Proof.
  intros Hn Ho HR. rewrite !Get_center_half.
  apply Z.odd_spec in Ho. destruct Ho as [k ->].
  replace ((2 * k + 1) / 2) with k by (apply Z.div_unique with 1; lia).
  assert (H := Z.div_mod R 2 ltac:(lia)).
  assert (B := Z.mod_pos_bound R 2 ltac:(lia)).
  rewrite slice_len_inside; lia.
Qed.

(** C3 (as stated, refuted): a 5x5 image put through the default first
    variant (angle 5, zoom 1.3) comes back 4x4, and a 4x4 image zoomed by
    0.25 comes back 1x1. *)
Lemma C3_shape_not_preserved :
  Data_augmentation (mkImage 5 5) 5 (13 # 10) false = Some (mkImage 4 4) /\
  Data_augmentation (mkImage 4 4) 5 (1 # 4) true = Some (mkImage 1 1).
Proof. split; reflexivity. Qed.

(** C3 (amended): for an image whose height and width are positive and
    even, and a zoom factor of at least one half, the pipeline returns an
    image with exactly the height and width of its input, for every angle
    and either flip setting. *)
Theorem C3_even_shape_preserved (img : Image) (angle : Z) (zoom : Q) (flipped : bool) :
  0 < rows img -> 0 < cols img ->
  Z.even (rows img) = true -> Z.even (cols img) = true ->
  (1 # 2 <= zoom)%Q ->
  exists out, Data_augmentation img angle zoom flipped = Some out /\
              rows out = rows img /\ cols out = cols img.
Proof.
  intros Hr Hc Er Ec Hz.
  assert (HR := upsampled_axis zoom (rows img) Hr Er Hz).
  assert (HC := upsampled_axis zoom (cols img) Hc Ec Hz).
  assert (Hgo : Upsample_img (Rotate_img (Pad_img img) angle) zoom =
                Some (mkImage (cvRound (zoom * inject_Z (rows img + rows img / 2 + rows img / 2)))
                              (cvRound (zoom * inject_Z (cols img + cols img / 2 + cols img / 2))))).
  { unfold Upsample_img, resize, Rotate_img, warpAffine, Pad_img, copyMakeBorder.
    cbn [rows cols]. rewrite !floor_half.
    destruct (Z.ltb_spec 0 (cvRound (zoom * inject_Z (cols img + cols img / 2 + cols img / 2))));
      [|lia].
    destruct (Z.ltb_spec 0 (cvRound (zoom * inject_Z (rows img + rows img / 2 + rows img / 2))));
      [|lia].
    reflexivity. }
  eexists. split.
  - unfold Data_augmentation, Flip_img, flip.
    destruct (Bool.eqb flipped false); rewrite Hgo; reflexivity.
  - unfold Center_crop; simpl. split; apply crop_axis; assumption.
Qed.

Lemma C3_even_shape_preserved_witness :
  exists out, Data_augmentation (mkImage 200 600) 5 (13 # 10) false = Some out /\
              rows out = 200 /\ cols out = 600.
Proof.
  apply (C3_even_shape_preserved (mkImage 200 600) 5 (13 # 10) false);
    simpl; try lia; try reflexivity.
  unfold Qle; simpl; lia.
Defined.

Lemma cvRound_nonpos (q : Q) : (q <= 0)%Q -> cvRound q <= 0.
Proof.
  intros H. assert (Hf := Qfloor_resp_le _ _ H). change (Qfloor 0) with 0 in Hf.
  unfold cvRound.
  destruct (Z.eq_dec (Qfloor q) 0) as [E|E].
  - rewrite E.
    assert (Hlt : (q - inject_Z 0 < 1 # 2)%Q).
    { unfold Qminus. change (- inject_Z 0)%Q with 0%Q. rewrite Qplus_0_r.
      eapply Qle_lt_trans; [exact H|reflexivity]. }
    assert (Hc : Qcompare (q - inject_Z 0) (1 # 2) = Lt) by (apply Qlt_alt; exact Hlt).
    rewrite Hc. lia.
  - destruct (Qcompare _ _); [destruct (Z.even _)| |]; lia.
Qed.

Lemma slice_len_window (n c h : Z) :
  0 <= h -> 0 <= slice_len n (c - h) (c + h) <= 2 * h.
Proof.
  intros Hh. unfold slice_len, slice_bound.
  destruct (Z.ltb_spec (c + h) 0), (Z.ltb_spec (c - h) 0); lia.
Qed.

Lemma half_bounds (n : Z) : 0 <= n -> 0 <= n / 2 /\ 2 * (n / 2) <= n.
Proof.
  intros Hn. assert (H := Z.div_mod n 2 ltac:(lia)).
  assert (B := Z.mod_pos_bound n 2 ltac:(lia)). lia.
Qed.

Lemma crop_axis_any (R n : Z) :
  0 <= n -> n <= R ->
  slice_len R (Get_center R - Get_center n) (Get_center R + Get_center n) = 2 * (n / 2).
Proof.
  intros Hn HR. rewrite !Get_center_half.
  destruct (half_bounds n Hn) as [H0 H1].
  destruct (half_bounds R ltac:(lia)) as [H2 H3].
  assert (Hle : n / 2 <= R / 2) by (apply Z.div_le_mono; lia).
  rewrite slice_len_inside; lia.
Qed.

Lemma upsampled_axis_any (zoom : Q) (n : Z) :
  0 <= n -> (1 <= zoom)%Q ->
  n <= cvRound (zoom * inject_Z (n + (n / 2) + (n / 2))).
Proof.
  intros Hn Hz. destruct (half_bounds n Hn) as [H0 _].
  apply Z.le_trans with (n + n / 2 + n / 2); [lia|].
  apply cvRound_lower.
  assert (Hm : 0 <= n + n / 2 + n / 2) by lia.
  revert Hm. generalize (n + n / 2 + n / 2). intros m Hm.
  destruct zoom as [a b]. unfold Qle, Qmult, inject_Z in *.
  cbn [Qnum Qden] in *. rewrite Pos.mul_1_r. nia.
Qed.

(** With a zoom factor of at least 1 the pipeline goes through on every
    image of positive size. *)
Lemma Data_augmentation_zoomed (img : Image) (angle : Z) (zoom : Q) (flipped : bool) :
  0 < rows img -> 0 < cols img -> (1 <= zoom)%Q ->
  Data_augmentation img angle zoom flipped =
  Some (mkImage (2 * (rows img / 2)) (2 * (cols img / 2))).
Proof.
  intros Hr Hc Hz.
  assert (HR := upsampled_axis_any zoom (rows img) ltac:(lia) Hz).
  assert (HC := upsampled_axis_any zoom (cols img) ltac:(lia) Hz).
  assert (Hgo : Upsample_img (Rotate_img (Pad_img img) angle) zoom =
                Some (mkImage (cvRound (zoom * inject_Z (rows img + rows img / 2 + rows img / 2)))
                              (cvRound (zoom * inject_Z (cols img + cols img / 2 + cols img / 2))))).
  { unfold Upsample_img, resize, Rotate_img, warpAffine, Pad_img, copyMakeBorder.
    cbn [rows cols]. rewrite !floor_half.
    destruct (Z.ltb_spec 0 (cvRound (zoom * inject_Z (cols img + cols img / 2 + cols img / 2))));
      [|lia].
    destruct (Z.ltb_spec 0 (cvRound (zoom * inject_Z (rows img + rows img / 2 + rows img / 2))));
      [|lia].
    reflexivity. }
  unfold Data_augmentation, Flip_img, flip.
  destruct (Bool.eqb flipped false); rewrite Hgo; unfold Center_crop; cbn [rows cols];
    rewrite !crop_axis_any by lia; reflexivity.
Qed.

(** With a zoom factor of zero or less [cv.resize] raises. *)
Lemma Data_augmentation_unzoomed (img : Image) (angle : Z) (zoom : Q) (flipped : bool) :
  0 <= rows img -> 0 <= cols img -> (zoom <= 0)%Q ->
  Data_augmentation img angle zoom flipped = None.
Proof.
  intros Hr Hc Hz.
  assert (Hgo : Upsample_img (Rotate_img (Pad_img img) angle) zoom = None).
  { unfold Upsample_img, resize, Rotate_img, warpAffine, Pad_img, copyMakeBorder.
    cbn [rows cols]. rewrite !floor_half.
    destruct (half_bounds (cols img) Hc) as [H0 _].
    assert (Hq : (zoom * inject_Z (cols img + cols img / 2 + cols img / 2) <= 0)%Q).
    { assert (Hm : 0 <= cols img + cols img / 2 + cols img / 2) by lia.
      revert Hm. generalize (cols img + cols img / 2 + cols img / 2). intros m Hm.
      destruct zoom as [a b]. unfold Qle, Qmult, inject_Z in *.
      cbn [Qnum Qden] in *. nia. }
    apply cvRound_nonpos in Hq.
    destruct (Z.ltb_spec 0 (cvRound (zoom * inject_Z (cols img + cols img / 2 + cols img / 2))));
      [lia|reflexivity]. }
  unfold Data_augmentation, Flip_img, flip.
  destruct (Bool.eqb flipped false); rewrite Hgo; reflexivity.
Qed.

End TransformShape.

(** ** The scheduler is one pass over the schedule *)

Section Schedule.
Variable cfg : Config.
Variable imread : Path -> option Utils.Image.
Variable formatted_date : string.
Variables label_dir dest_dir label : string.
Variable target : Z.

Lemma take_full (W xs : list Write) :
  target <= Z.of_nat (length W) -> take target W xs = W.
Proof.
  intros H. unfold take.
  replace (Z.to_nat (target - Z.of_nat (length W))) with 0%nat by lia.
  simpl. apply app_nil_r.
Qed.

Lemma take_cons (W xs : list Write) (x : Write) :
  Z.of_nat (length W) < target -> take target W (x :: xs) = take target (W ++ [x]) xs.
Proof.
  intros H. unfold take. rewrite length_app, <- app_assoc. cbn [length app].
  replace (Z.to_nat (target - Z.of_nat (length W)))
    with (S (Z.to_nat (target - Z.of_nat (length W + 1)))) by lia.
  reflexivity.
Qed.

Lemma walk_app run xs : forall ys W,
  walk target run (xs ++ ys) W =
  match walk target run xs W with
  | (Finished, W') => walk target run ys W'
  | r => r
  end.
Proof.
  induction xs as [|x xs IH]; intros ys W; cbn [app walk]; [reflexivity|].
  destruct (_ >? _); [reflexivity|]. destruct (run x); [apply IH|reflexivity].
Qed.

(** What a pass leaves on disk: the first variants of the plan that can
    be produced, up to the target. *)
Lemma walk_written xs : forall W,
  snd (walk target (attempt imread) xs W) = take target W (good_prefix (produced imread) xs).
Proof.
  induction xs as [|x xs IH]; intros W; cbn [walk good_prefix].
  - unfold take. rewrite firstn_nil. symmetry. apply app_nil_r.
  - unfold produced at 1.
    destruct (Z.gtb_spec (1 + Z.of_nat (length W)) target) as [Hc|Hc].
    + cbn [snd]. rewrite take_full by lia. reflexivity.
    + destruct (attempt imread x) as [u|e].
      * rewrite IH. symmetry. apply take_cons. lia.
      * cbn [snd]. unfold take. rewrite firstn_nil. symmetry. apply app_nil_r.
Qed.

Let vbody := variant_body imread formatted_date target dest_dir label.
Let ibody := image_body cfg imread formatted_date target dest_dir label.
Let sbody := site_body cfg imread formatted_date target dest_dir label.

Lemma emit_single site k i v :
  alternating v ->
  emit formatted_date dest_dir label site k i v =
  [mkWrite (path_join dest_dir (new_file_name formatted_date label site k i)) site
           (theta v) (fact v) (switch v =? 1)].
Proof. unfold emit. intros [-> | ->]; reflexivity. Qed.

(** One iteration of the variant loop is one step of the pass. *)
Lemma variant_body_step site k i s v x :
  counter_ok s -> alternating v ->
  emit formatted_date dest_dir label site k i v = [x] ->
  vbody site k i (s, v) =
  if 1 + Z.of_nat (length (written s)) >? target then Returned (s, v)
  else match attempt imread x with
       | Ok _ => Continue (mkSched (counter s + 1) (written s ++ [x]), advance v)
       | Raise e => Raised e (s, v)
       end.
Proof.
  unfold counter_ok, vbody, variant_body. intros Hs Hv Hx. rewrite <- Hs.
  destruct (counter s >? target); [reflexivity|].
  rewrite (emit_single site k i v Hv) in Hx. inversion Hx as [Ex]. clear Hx.
  unfold attempt, advance. cbn [w_src w_theta w_fact w_flipped w_dest].
  destruct Hv as [Hv|Hv]; rewrite Hv; cbn [Z.eqb Pos.eqb];
    destruct (Data_augmentation_call imread site (theta v) (fact v) _) as [img|e];
    cbn [bind]; try reflexivity;
    destruct (imwrite _ img) as [u|e]; cbn [bind]; try reflexivity;
    destruct (switch_ended v mod 2 =? 0); reflexivity.
Qed.

Lemma counter_ok_next s x :
  counter_ok s -> counter_ok (mkSched (counter s + 1) (written s ++ [x])).
Proof.
  unfold counter_ok. cbn [counter written]. rewrite length_app. cbn [length]. lia.
Qed.

Lemma advance_alternating v : alternating v -> alternating (advance v).
Proof.
  unfold alternating, advance. intros [H|H];
    destruct (switch_ended v mod 2 =? 0); simpl; rewrite H; auto.
Qed.

Lemma variant_loop_walk site k l : forall s v r,
  counter_ok s -> alternating v ->
  for_each (vbody site k) l (s, v) = r ->
  (exit_of r, written (fst (final r))) =
    walk target (attempt imread)
         (variants_from formatted_date dest_dir label site k v l) (written s) /\
  counter_ok (fst (final r)).
Proof.
  induction l as [|i l IH]; intros s v r Hs Hv <-.
  - cbn. auto.
  - cbn [for_each variants_from].
    rewrite (emit_single site k i v Hv). cbn [app walk].
    rewrite (variant_body_step site k i s v _ Hs Hv (emit_single site k i v Hv)).
    destruct (_ >? _); [cbn; auto|].
    destruct (attempt imread _) as [u|e]; [|cbn; auto].
    apply (IH _ (advance v) _ (counter_ok_next s _ Hs) (advance_alternating v Hv) eq_refl).
Qed.

Lemma image_loop_walk sites : forall s k r,
  counter_ok s ->
  for_each ibody sites (s, k) = r ->
  (exit_of r, written (fst (final r))) =
    walk target (attempt imread)
         (images_variants cfg formatted_date dest_dir label k sites) (written s) /\
  counter_ok (fst (final r)).
Proof.
  induction sites as [|site sites IH]; intros s k r Hs <-.
  - cbn. auto.
  - cbn [for_each images_variants]. rewrite walk_app.
    destruct (variant_loop_walk site k (range (MULTIPLIER cfg * 2)) s
                (mkVars (-1) (THETA cfg) (FACT cfg) 1) _ Hs (or_introl eq_refl) eq_refl)
      as (Hw & Hok).
    fold (image_variants cfg formatted_date dest_dir label site k) in Hw.
    assert (E : ibody site (s, k) =
                match for_each (vbody site k) (range (MULTIPLIER cfg * 2))
                        (s, mkVars (-1) (THETA cfg) (FACT cfg) 1) with
                | Continue (s', _) => Continue (s', S k)
                | Returned (s', _) => Returned (s', k)
                | Raised e (s', _) => Raised e (s', k)
                end) by reflexivity.
    rewrite E; clear E. rewrite <- Hw.
    destruct (for_each _ (range _) _) as [[s' v']|[s' v']|e [s' v']];
      cbn [final fst exit_of] in Hok |- *;
      [apply (IH s' (S k) _ Hok eq_refl)|split; [reflexivity|exact Hok]..].
Qed.

Lemma site_loop_walk site_path elements : forall s r,
  counter_ok s ->
  for_each (sbody site_path) elements s = r ->
  (exit_of r, written (final r)) =
    walk target (attempt imread)
         (flat_map (fun e => images_variants cfg formatted_date dest_dir label 0
                               (site_paths (fst e) site_path)) elements)
         (written s) /\
  counter_ok (final r).
Proof.
  induction elements as [|e elements IH]; intros s r Hs <-.
  - cbn. auto.
  - cbn [for_each flat_map]. rewrite walk_app.
    destruct (image_loop_walk (site_paths (fst e) site_path) s 0%nat _ Hs eq_refl)
      as (Hw & Hok).
    assert (E : sbody site_path e s =
                match for_each ibody (site_paths (fst e) site_path) (s, 0%nat) with
                | Continue (s', _) => Continue s'
                | Returned (s', _) => Returned s'
                | Raised err (s', _) => Raised err s'
                end) by reflexivity.
    rewrite E; clear E. rewrite <- Hw.
    destruct (for_each _ (site_paths _ _) _) as [[s' k']|[s' k']|err [s' k']];
      cbn [final fst exit_of] in Hok |- *;
      [apply (IH s' _ Hok eq_refl)|split; [reflexivity|exact Hok]..].
Qed.

(** The three nested loops of the scheduler are one pass over the
    schedule, and the counter is one more than the number of files
    written. *)
Lemma DataAugmentation_loop_walk (image_list : list string) :
  (exit_of (DataAugmentation_loop cfg imread formatted_date target label_dir dest_dir label
                                  image_list),
   DataAugmentation cfg imread formatted_date target label_dir dest_dir label image_list) =
  walk target (attempt imread)
       (schedule cfg formatted_date label_dir dest_dir label image_list) [] /\
  counter_ok (final (DataAugmentation_loop cfg imread formatted_date target label_dir
                                           dest_dir label image_list)).
Proof.
  unfold DataAugmentation, DataAugmentation_loop, schedule.
  destruct (count_files label_dir image_list) as [site_ids_count site_path].
  apply (site_loop_walk site_path (SortDict site_ids_count) (mkSched 1 []) _
           eq_refl eq_refl).
Qed.

(** The scheduler writes the first [target] entries of the schedule (none
    when the target is not positive), or fewer when a variant cannot be
    produced: it stops at the first such variant. *)
Lemma DataAugmentation_prefix (image_list : list string) :
  DataAugmentation cfg imread formatted_date target label_dir dest_dir label image_list =
  firstn (Z.to_nat target)
         (good_prefix (produced imread)
                      (schedule cfg formatted_date label_dir dest_dir label image_list)).
Proof.
  destruct (DataAugmentation_loop_walk image_list) as [Hw _].
  apply (f_equal snd) in Hw. cbn [snd] in Hw. rewrite Hw, walk_written.
  unfold take. cbn [length app]. rewrite Z.sub_0_r. reflexivity.
Qed.

End Schedule.

(** ** Plans whose variants can all be produced *)

Section GoodPrefix.
Variable ok : Write -> bool.

Lemma good_prefix_all xs : Forall (fun x => ok x = true) xs -> good_prefix ok xs = xs.
Proof.
  induction 1 as [|x xs Hx _ IH]; cbn [good_prefix]; [reflexivity|].
  now rewrite Hx, IH.
Qed.

Lemma good_prefix_firstn xs : good_prefix ok xs = firstn (length (good_prefix ok xs)) xs.
Proof.
  induction xs as [|x xs IH]; cbn [good_prefix]; [reflexivity|].
  destruct (ok x); [|reflexivity]. cbn [length firstn]. now rewrite <- IH.
Qed.

Lemma good_prefix_length xs : (length (good_prefix ok xs) <= length xs)%nat.
Proof.
  induction xs as [|x xs IH]; cbn [good_prefix]; [lia|].
  destruct (ok x); cbn [length]; lia.
Qed.

Lemma firstn_good_prefix n xs :
  Forall (fun x => ok x = true) (firstn n xs) ->
  firstn n (good_prefix ok xs) = firstn n xs.
Proof.
  revert xs. induction n as [|n IH]; intros [|x xs] H; cbn [firstn good_prefix] in *;
    try reflexivity.
  inversion H as [|? ? Hx Hxs]; subst. rewrite Hx. cbn [firstn]. now rewrite IH.
Qed.

End GoodPrefix.

(** ** Dictionaries and the grouping of a listing by site *)

Section DictFacts.
Context {V : Type}.
Implicit Types (d : list (string * V)) (k : string) (v : V).

Lemma dict_get_absent k d : dict_get k d = None <-> ~ In k (map fst d).
Proof.
  induction d as [|[k' v'] d IH]; simpl; [tauto|].
  destruct (String.eqb_spec k k') as [->|Hne].
  - split; [discriminate | intros H; exfalso; apply H; now left].
  - rewrite IH. split; [intros H [E|HI]; [congruence|tauto] | tauto].
Qed.

Lemma dict_set_absent k v d : dict_get k d = None -> dict_set k v d = d ++ [(k, v)].
Proof.
  induction d as [|[k' v'] d IH]; simpl; [reflexivity|].
  destruct (String.eqb k k'); [discriminate|]. intros H. now rewrite IH.
Qed.

Lemma dict_set_keys k v v0 d :
  dict_get k d = Some v0 -> map fst (dict_set k v d) = map fst d.
Proof.
  induction d as [|[k' v'] d IH]; simpl; [discriminate|].
  destruct (String.eqb_spec k k') as [->|Hne]; simpl; [reflexivity|].
  intros H. now rewrite IH.
Qed.

Lemma dict_get_In k v d : dict_get k d = Some v -> In (k, v) d.
Proof.
  induction d as [|[k' v'] d IH]; simpl; [discriminate|].
  destruct (String.eqb_spec k k') as [->|Hne].
  - intros E; inversion E; now left.
  - intros H; right; auto.
Qed.

Lemma In_dict_get k v d : NoDup (map fst d) -> In (k, v) d -> dict_get k d = Some v.
Proof.
  induction d as [|[k' v'] d IH]; simpl; [tauto|].
  intros Hnd [E|HI].
  - inversion E; subst. now rewrite String.eqb_refl.
  - inversion Hnd; subst.
    destruct (String.eqb_spec k k') as [->|Hne]; [|auto].
    exfalso. apply H1. apply in_map_iff. exists (k', v). split; auto.
Qed.

Lemma dict_set_In k v v0 d k1 v1 :
  NoDup (map fst d) ->
  dict_get k d = Some v0 -> In (k1, v1) (dict_set k v d) ->
  (k1 = k /\ v1 = v) \/ (k1 <> k /\ In (k1, v1) d).
Proof.
  induction d as [|[k' v'] d IH]; simpl; [discriminate|].
  intros Hnd. inversion Hnd; subst.
  destruct (String.eqb_spec k k') as [->|Hne]; simpl.
  - intros _ [E|HI]; [inversion E; now left|].
    right. split; [|now right]. intros ->. apply H1.
    apply in_map_iff. exists (k', v1). split; auto.
  - intros Hg [E|HI]; [inversion E; subst; right; split; [congruence|now left]|].
    destruct (IH H2 Hg HI) as [?|[? ?]]; [now left|right; split; auto].
Qed.

End DictFacts.

Section Grouping.
Variable label_dir : string.

Lemma dict_get_lengths k paths :
  dict_get k (lengths paths) =
  match dict_get k paths with Some l => Some (Z.of_nat (length l)) | None => None end.
Proof.
  induction paths as [|[k' l'] paths IH]; simpl; [reflexivity|].
  destruct (String.eqb k k'); [reflexivity|exact IH].
Qed.

Lemma dict_set_lengths k l paths :
  lengths (dict_set k l paths) = dict_set k (Z.of_nat (length l)) (lengths paths).
Proof.
  induction paths as [|[k' l'] paths IH]; simpl; [reflexivity|].
  destruct (String.eqb k k'); simpl; [reflexivity|]. now rewrite IH.
Qed.

Lemma dict_set_total k l l0 (paths : list (string * list Path)) :
  dict_get k paths = Some l0 ->
  (length (concat (map snd (dict_set k l paths))) + length l0 =
   length (concat (map snd paths)) + length l)%nat.
Proof.
  induction paths as [|[k' l'] paths IH]; simpl; [discriminate|].
  destruct (String.eqb k k'); simpl.
  - intros E; inversion E; subst. rewrite !length_app. lia.
  - intros H. specialize (IH H). rewrite !length_app. lia.
Qed.

Lemma site_files_snoc_same k files f :
  split_head f = k ->
  site_files label_dir k (files ++ [f]) = site_files label_dir k files ++ [path_join label_dir f].
Proof.
  intros <-. unfold site_files. rewrite filter_app, map_app. simpl.
  now rewrite String.eqb_refl.
Qed.

Lemma site_files_snoc_other k files f :
  split_head f <> k -> site_files label_dir k (files ++ [f]) = site_files label_dir k files.
Proof.
  intros Hne. unfold site_files. rewrite filter_app, map_app. simpl.
  destruct (String.eqb_spec (split_head f) k); [contradiction|].
  simpl. apply app_nil_r.
Qed.

Lemma site_files_uncovered k files :
  (forall f, In f files -> split_head f <> k) -> site_files label_dir k files = [].
Proof.
  intros H. unfold site_files. induction files as [|f files IH]; simpl; [reflexivity|].
  destruct (String.eqb_spec (split_head f) k) as [E|_].
  - exfalso. apply (H f); [now left|exact E].
  - apply IH. intros g Hg. apply H. now right.
Qed.

Lemma count_file_grouped files counts paths f :
  grouped label_dir files counts paths ->
  let '(counts', paths') := count_file label_dir (counts, paths) f in
  grouped label_dir (files ++ [f]) counts' paths'.
Proof.
  intros [Hc Hk Hp Hne Hcov Htot]. unfold count_file.
  set (k := split_head f). subst counts. rewrite dict_get_lengths.
  unfold site_paths.
  destruct (dict_get k paths) as [l|] eqn:Hget.
  - assert (Hl := Hp k l (dict_get_In _ _ _ Hget)).
    split.
    + rewrite dict_set_lengths, length_app. simpl.
      f_equal. lia.
    + now rewrite (dict_set_keys _ _ _ _ Hget).
    + intros k1 l1 HI.
      destruct (dict_set_In _ _ _ _ _ _ Hk Hget HI) as [[-> ->]|[Hne' HI']].
      * rewrite site_files_snoc_same by reflexivity. now rewrite <- Hl.
      * rewrite site_files_snoc_other by (fold k; congruence). auto.
    + intros k1 l1 HI.
      destruct (dict_set_In _ _ _ _ _ _ Hk Hget HI) as [[-> ->]|[Hne' HI']].
      * now destruct l.
      * eauto.
    + intros g Hg. rewrite (dict_set_keys _ _ _ _ Hget).
      apply in_app_or in Hg. destruct Hg as [Hg|[<-|[]]]; [auto|].
      apply in_map_iff. exists (k, l). split; [reflexivity|].
      now apply dict_get_In.
    + assert (H := dict_set_total k (l ++ [path_join label_dir f]) l paths Hget).
      rewrite !length_app in *. simpl in *. lia.
  - assert (Hfresh : ~ In k (map fst paths)) by now apply dict_get_absent.
    rewrite (dict_set_absent k _ paths Hget).
    assert (Hget' : dict_get k (lengths paths) = None)
      by (rewrite dict_get_lengths, Hget; reflexivity).
    rewrite (dict_set_absent k _ (lengths paths) Hget').
    split.
    + unfold lengths. rewrite map_app. reflexivity.
    + rewrite map_app. simpl. apply NoDup_app; [exact Hk|repeat constructor; tauto|].
      intros a Ha [<-|[]]. contradiction.
    + intros k1 l1 HI. apply in_app_or in HI. destruct HI as [HI|[E|[]]].
      * rewrite site_files_snoc_other; [auto|]. fold k. intros <-.
        apply Hfresh. apply in_map_iff. exists (k, l1). split; auto.
      * inversion E; subst k1 l1. rewrite site_files_snoc_same by reflexivity.
        rewrite site_files_uncovered; [reflexivity|].
        intros g Hg E'. apply Hfresh. fold k in E'. rewrite <- E'. auto.
    + intros k1 l1 HI. apply in_app_or in HI. destruct HI as [HI|[E|[]]].
      * eauto.
      * inversion E; discriminate.
    + intros g Hg. rewrite map_app. apply in_or_app.
      apply in_app_or in Hg. destruct Hg as [Hg|[<-|[]]]; [left; auto|right; now left].
    + rewrite map_app, concat_app, !length_app. simpl. lia.
Qed.

Lemma fold_count_file_grouped new : forall files counts paths,
  grouped label_dir files counts paths ->
  let '(counts', paths') := fold_left (count_file label_dir) new (counts, paths) in
  grouped label_dir (files ++ new) counts' paths'.
Proof.
  induction new as [|f new IH]; intros files counts paths G; cbn [fold_left].
  - now rewrite app_nil_r.
  - assert (G' := count_file_grouped files counts paths f G).
    destruct (count_file label_dir (counts, paths) f) as [counts1 paths1].
    specialize (IH _ _ _ G').
    replace (files ++ f :: new) with ((files ++ [f]) ++ new)
      by (rewrite <- app_assoc; reflexivity).
    exact IH.
Qed.

Lemma count_files_grouped (image_list : list string) :
  let '(site_ids_count, site_path) := count_files label_dir image_list in
  grouped label_dir image_list site_ids_count site_path.
Proof.
  unfold count_files.
  apply (fold_count_file_grouped image_list [] [] []).
  split; simpl; try tauto; try reflexivity. constructor.
Qed.

(** Both dictionaries hold the same keys, in the same order. *)
Lemma count_files_keys (image_list : list string) :
  let '(site_ids_count, site_path) := count_files label_dir image_list in
  map fst site_ids_count = map fst site_path.
Proof.
  assert (G := count_files_grouped image_list).
  destruct (count_files label_dir image_list) as [c p].
  rewrite (g_counts _ _ _ _ G). unfold lengths. rewrite map_map. reflexivity.
Qed.


Lemma site_files_site k files p :
  In p (site_files label_dir k files) -> split_head (path_basename p) = k.
Proof.
  unfold site_files. intros H. apply in_map_iff in H. destruct H as (f & <- & Hf).
  apply filter_In in Hf. destruct Hf as [_ Hf]. simpl.
  now apply String.eqb_eq.
Qed.

Lemma site_files_count k files p :
  In p (site_files label_dir k files) ->
  site_count files p = Z.of_nat (length (site_files label_dir k files)).
Proof.
  intros H. unfold site_count. rewrite (site_files_site k files p H).
  unfold site_files. now rewrite length_map.
Qed.

Lemma grouped_lookup files counts paths k c :
  grouped label_dir files counts paths -> In (k, c) counts ->
  site_paths k paths = site_files label_dir k files /\
  c = Z.of_nat (length (site_files label_dir k files)).
Proof.
  intros G HI. rewrite (g_counts _ _ _ _ G) in HI. unfold lengths in HI.
  apply in_map_iff in HI. destruct HI as ([k' l] & E & HI). simpl in E.
  inversion E; subst k c.
  unfold site_paths. rewrite (In_dict_get _ _ _ (g_keys _ _ _ _ G) HI).
  rewrite <- (g_paths _ _ _ _ G _ _ HI). auto.
Qed.

Lemma grouped_lookup_nonempty files counts paths k c :
  grouped label_dir files counts paths -> In (k, c) counts -> site_paths k paths <> [].
Proof.
  intros G HI. rewrite (g_counts _ _ _ _ G) in HI. unfold lengths in HI.
  apply in_map_iff in HI. destruct HI as ([k' l] & E & HI). simpl in E.
  inversion E; subst k c.
  unfold site_paths. rewrite (In_dict_get _ _ _ (g_keys _ _ _ _ G) HI).
  exact (g_nonempty _ _ _ _ G _ _ HI).
Qed.

End Grouping.

(** ** [SortDict] sorts by count *)

Section Sorting.

Lemma insert_item_perm x l : Permutation (x :: l) (insert_item x l).
Proof.
  induction l as [|y l IH]; simpl; [reflexivity|].
  destruct (snd x <=? snd y); [reflexivity|].
  rewrite perm_swap. now constructor.
Qed.

Lemma SortDict_perm d : Permutation d (SortDict d).
Proof.
  induction d as [|x d IH]; simpl; [constructor|].
  rewrite <- insert_item_perm. now constructor.
Qed.

Lemma insert_item_sorted x l :
  StronglySorted count_le l -> StronglySorted count_le (insert_item x l).
Proof.
  induction 1 as [|y l Hs IH Hall]; simpl.
  - repeat constructor.
  - destruct (Z.leb_spec (snd x) (snd y)) as [Hle|Hgt].
    + constructor; [now constructor|].
      constructor; [exact Hle|].
      eapply Forall_impl; [|exact Hall]. unfold count_le. intros; lia.
    + constructor; [exact IH|].
      rewrite <- insert_item_perm. constructor; [unfold count_le; lia|exact Hall].
Qed.

Lemma SortDict_sorted d : StronglySorted count_le (SortDict d).
Proof.
  induction d as [|x d IH]; simpl; [constructor|].
  now apply insert_item_sorted.
Qed.

Lemma In_firstn {A} (x : A) n l : In x (firstn n l) -> In x l.
Proof.
  intros H. rewrite <- (firstn_skipn n l). apply in_or_app. now left.
Qed.

Lemma StronglySorted_firstn {A} (R : A -> A -> Prop) n l :
  StronglySorted R l -> StronglySorted R (firstn n l).
Proof.
  intros H. revert n. induction H as [|x l Hs IH Hall]; intros [|n]; simpl;
    try constructor; auto.
  apply Forall_forall. intros y Hy. apply In_firstn in Hy.
  revert y Hy. now apply Forall_forall.
Qed.

Lemma StronglySorted_flat_map {A B} (ka : A -> Z) (kb : B -> Z) (f : A -> list B) l :
  StronglySorted (fun a b => ka a <= ka b) l ->
  (forall a, In a l -> forall b, In b (f a) -> kb b = ka a) ->
  StronglySorted (fun x y => kb x <= kb y) (flat_map f l).
Proof.
  induction 1 as [|a l Hs IH Hall]; intros Hk; simpl; [constructor|].
  assert (Htail : StronglySorted (fun x y => kb x <= kb y) (flat_map f l))
    by (apply IH; intros; apply Hk; [now right|assumption]).
  assert (Hhead : forall b, In b (f a) -> kb b = ka a)
    by (intros; apply Hk; [now left|assumption]).
  assert (Hrest : forall y, In y (flat_map f l) -> ka a <= kb y).
  { intros y Hy. apply in_flat_map in Hy. destruct Hy as (a' & Ha' & Hy).
    rewrite (Hk a' (or_intror Ha') y Hy).
    rewrite Forall_forall in Hall. now apply Hall. }
  clear Hk IH. induction (f a) as [|b bs IHb]; simpl; [exact Htail|].
  constructor.
  - apply IHb. intros; apply Hhead; now right.
  - apply Forall_forall. intros y Hy. apply in_app_or in Hy.
    rewrite (Hhead b (or_introl eq_refl)). destruct Hy as [Hy|Hy].
    + rewrite (Hhead y (or_intror Hy)). lia.
    + now apply Hrest.
Qed.

End Sorting.

(** ** Stopping rule of the scheduler *)

Section StoppingRule.

Lemma first_check_returns
      (cfg : Config) (imread : Path -> option Utils.Image)
      (formatted_date label_dir dest_dir label : string)
      (target : Z) (image_list : list string) :
  target <= 0 -> image_list <> [] -> 0 < MULTIPLIER cfg ->
  DataAugmentation_loop cfg imread formatted_date target label_dir dest_dir label image_list
  = Returned (mkSched 1 []).
Proof.
  intros Ht Hne Hm. unfold DataAugmentation_loop.
  assert (G := count_files_grouped label_dir image_list).
  destruct (count_files label_dir image_list) as [site_ids_count site_path].
  destruct image_list as [|f files]; [contradiction|].
  assert (Hk := g_cover _ _ _ _ G f (or_introl eq_refl)).
  assert (Hperm := SortDict_perm site_ids_count).
  destruct (SortDict site_ids_count) as [|e es].
  { apply Permutation_sym, Permutation_nil in Hperm.
    rewrite (g_counts _ _ _ _ G) in Hperm. unfold lengths in Hperm.
    destruct site_path; [contradiction|discriminate]. }
  assert (He : In e site_ids_count)
    by (eapply Permutation_in; [symmetry; exact Hperm|now left]).
  destruct e as [k c].
  assert (Hp := grouped_lookup_nonempty _ _ _ _ _ _ G He).
  cbn [for_each]. unfold site_body. cbn [fst].
  destruct (site_paths k site_path) as [|site sites]; [contradiction|].
  cbn [for_each]. unfold image_body, range.
  destruct (Z.to_nat (MULTIPLIER cfg * 2)) as [|n] eqn:En; [lia|].
  cbn [seq for_each]. unfold variant_body. cbn [counter].
  destruct (Z.gtb_spec 1 target); [reflexivity|lia].
Qed.

(** C9: with a target of zero or less the scheduler writes no file, for
    every configuration, every source listing and whatever the files
    hold, and its counter is still at its initial value 1 when it
    finishes; when there is an image to augment and a positive multiplier,
    it finishes by the [return] of the very first check
    [counter > target]. *)
Theorem C9_nonpositive_target_no_write
        (cfg : Config) (imread : Path -> option Utils.Image)
        (formatted_date label_dir dest_dir label : string)
        (target : Z) (image_list : list string) :
  target <= 0 ->
  DataAugmentation cfg imread formatted_date target label_dir dest_dir label image_list = [] /\
  final (DataAugmentation_loop cfg imread formatted_date target label_dir dest_dir label
                               image_list)
    = mkSched 1 [] /\
  (image_list <> [] -> 0 < MULTIPLIER cfg ->
   DataAugmentation_loop cfg imread formatted_date target label_dir dest_dir label image_list
   = Returned (mkSched 1 [])).
Proof.
  intros Ht.
  assert (Hw := DataAugmentation_prefix cfg imread formatted_date label_dir dest_dir label
                  target image_list).
  replace (Z.to_nat target) with 0%nat in Hw by lia. cbn [firstn] in Hw.
  split; [exact Hw|]. split; [|now apply first_check_returns].
  destruct (DataAugmentation_loop_walk cfg imread formatted_date label_dir dest_dir label
              target image_list) as [_ Hok].
  unfold DataAugmentation in Hw. unfold counter_ok in Hok. rewrite Hw in Hok.
  destruct (final _) as [c w]. cbn in *. subst. reflexivity.
Qed.

Lemma C9_nonpositive_target_no_write_witness :
  DataAugmentation default_config all_decodable "110326" 0 "flow_600_200/1"
    "balanced_data/1" "L1" ["23_a.JPG"; "23_b.JPG"; "7_a.JPG"]%string = [] /\
  final (DataAugmentation_loop default_config all_decodable "110326" 0 "flow_600_200/1"
           "balanced_data/1" "L1" ["23_a.JPG"; "23_b.JPG"; "7_a.JPG"]%string)
    = mkSched 1 [] /\
  (["23_a.JPG"; "23_b.JPG"; "7_a.JPG"]%string <> [] -> 0 < MULTIPLIER default_config ->
   DataAugmentation_loop default_config all_decodable "110326" 0 "flow_600_200/1"
           "balanced_data/1" "L1" ["23_a.JPG"; "23_b.JPG"; "7_a.JPG"]%string
   = Returned (mkSched 1 [])).
Proof.
  apply (C9_nonpositive_target_no_write default_config all_decodable "110326"
           "flow_600_200/1" "balanced_data/1" "L1" 0
           ["23_a.JPG"; "23_b.JPG"; "7_a.JPG"]%string).
  lia.
Defined.

Lemma count_files_single_site (label_dir f1 f2 f3 f4 : string) :
  split_head f2 = split_head f1 ->
  split_head f3 = split_head f1 ->
  split_head f4 = split_head f1 ->
  count_files label_dir [f1; f2; f3; f4] =
  ([(split_head f1, 4)],
   [(split_head f1, [path_join label_dir f1; path_join label_dir f2;
                     path_join label_dir f3; path_join label_dir f4])]).
Proof.
  intros H2 H3 H4. unfold count_files. cbn [fold_left].
  unfold count_file at 4. cbn [dict_get dict_set].
  unfold count_file at 3. rewrite H2. cbn [dict_get dict_set site_paths].
  rewrite !String.eqb_refl.
  unfold count_file at 2. rewrite H3. cbn [dict_get dict_set site_paths].
  rewrite !String.eqb_refl.
  unfold count_file. rewrite H4. cbn [dict_get dict_set site_paths].
  rewrite !String.eqb_refl.
  unfold site_paths. cbn [dict_get]. rewrite !String.eqb_refl. reflexivity.
Qed.

(** A variant of a decodable image of at least two rows and two columns
    at a zoom factor of at least 1 is produced. *)
Lemma attempt_ok (imread : Path -> option Utils.Image) (w : Write)
      (img : Utils.Image) (zoom : Q) :
  imread (w_src w) = Some img ->
  float_value (w_fact w) = Some zoom -> Qle_bool 1 zoom = true ->
  2 <= Utils.rows img -> 2 <= Utils.cols img ->
  attempt imread w = Ok tt.
Proof.
  intros Hi Hf Hz Hr Hc. apply Qle_bool_iff in Hz.
  unfold attempt, Data_augmentation_call.
  rewrite Hi, Hf, Data_augmentation_zoomed by (try lia; exact Hz).
  cbn [bind]. unfold imwrite. cbn [Utils.rows Utils.cols].
  destruct (Z.leb_spec (2 * (Utils.rows img / 2)) 0) as [H|H];
    [exfalso; Z.div_mod_to_equations; lia|].
  destruct (Z.leb_spec (2 * (Utils.cols img / 2)) 0) as [H'|H'];
    [exfalso; Z.div_mod_to_equations; lia|].
  reflexivity.
Qed.

(** A pass whose first [n] variants are produced and whose target is used
    up by them stops at the check before the next variant. *)
Lemma walk_stops (target : Z) (run : Write -> Res unit) : forall n xs W,
  Forall (fun x => run x = Ok tt) (firstn n xs) ->
  Z.of_nat (length W) + Z.of_nat n = target -> (n < length xs)%nat ->
  walk target run xs W = (Stopped, W ++ firstn n xs).
Proof.
  induction n as [|n IH]; intros [|x xs] W Hall Ht Hlen; cbn [length] in Hlen; try lia.
  - cbn [walk firstn]. destruct (Z.gtb_spec (1 + Z.of_nat (length W)) target); [|lia].
    now rewrite app_nil_r.
  - cbn [walk firstn] in *. inversion Hall as [|? ? Hx Hxs]; subst.
    destruct (Z.gtb_spec (1 + Z.of_nat (length W)) (Z.of_nat (length W) + Z.of_nat (S n)));
      [lia|].
    rewrite Hx, (IH xs (W ++ [x]) Hxs).
    + now rewrite <- app_assoc.
    + rewrite length_app. cbn [length]. lia.
    + lia.
Qed.

Lemma walk_stopped_length (target : Z) (run : Write -> Res unit) : forall xs W,
  fst (walk target run xs W) = Stopped ->
  target <= Z.of_nat (length (snd (walk target run xs W))).
Proof.
  induction xs as [|x xs IH]; intros W; cbn [walk]; [discriminate|].
  destruct (Z.gtb_spec (1 + Z.of_nat (length W)) target); [cbn [snd]; lia|].
  destruct (run x); [apply IH|discriminate].
Qed.

Lemma stopped_returned (r : Ctl Sched) (W : list Write) :
  exit_of r = Stopped -> counter_ok (final r) -> written (final r) = W ->
  r = Returned (mkSched (1 + Z.of_nat (length W)) W).
Proof.
  destruct r as [s|s|e s]; try discriminate. unfold counter_ok. cbn [final].
  intros _ Hc <-. destruct s as [c w]. cbn in *. now subst.
Qed.

Lemma returned_stopped {S : Type} (r : Ctl S) : returned r <-> exit_of r = Stopped.
Proof. destruct r; cbn; split; try tauto; discriminate. Qed.

(** C5 (as stated, refuted): on a label directory holding one site group
    of four images of a single row each, with the default configuration
    and a target of 5, the scheduler writes no file: the centre crop of
    the first variant has no row, [cv.imwrite] refuses it, and the
    exception ends the scheduler with its counter still at 1.  The same
    happens, at [Pad_img], when the first listed file does not decode. *)
Lemma C5_first_variant_raises :
  (DataAugmentation_loop default_config one_row_images "110326" 5 "flow_600_200/1"
                         "balanced_data/1" "L1"
                         ["23_a.JPG"; "23_b.JPG"; "23_c.JPG"; "23_d.JPG"]%string
   = Raised cv2_error (mkSched 1 [])) /\
  (Data_augmentation_call one_row_images (path_join "flow_600_200/1" "23_a.JPG") 5
                          1.3%float false
   = Ok (Utils.mkImage 0 600)) /\
  (DataAugmentation_loop default_config none_decodable "110326" 5 "flow_600_200/1"
                         "balanced_data/1" "L1"
                         ["23_a.JPG"; "23_b.JPG"; "23_c.JPG"; "23_d.JPG"]%string
   = Raised AttributeError (mkSched 1 [])).
Proof. split; [|split]; vm_compute; reflexivity. Qed.

(** C5 (amended): on a label directory holding one site group of four
    images, the first listed of which decodes to at least two rows and two
    columns, with the default configuration (multiplier 6) and a target of
    5, the scheduler writes exactly five files, all of them variants of
    that first image: (5, plain), (5, flipped), (10, plain),
    (10, flipped), (15, plain), in that order, at the zoom factors 1.3,
    1.3, 1.6, 1.6 and 1.9000000000000001 the doubles accumulate to; it
    then leaves by its [return], the counter at 6, without a sixth.  In
    general the files written for a target are the first [target] entries
    of the schedule, wherever in an image or a site that prefix ends, cut
    short at the first variant that cannot be produced; so never more than
    the target, and exactly the target when the scheduler leaves by its
    [return]. *)
Theorem C5_scenario_and_prefix :
  (forall (imread : Path -> option Utils.Image)
          (formatted_date label_dir dest_dir label f1 f2 f3 f4 : string)
          (img : Utils.Image),
      split_head f2 = split_head f1 ->
      split_head f3 = split_head f1 ->
      split_head f4 = split_head f1 ->
      imread (path_join label_dir f1) = Some img ->
      2 <= Utils.rows img -> 2 <= Utils.cols img ->
      let site := path_join label_dir f1 in
      let dst := fun i => path_join dest_dir (new_file_name formatted_date label site 0 i) in
      DataAugmentation_loop default_config imread formatted_date 5 label_dir dest_dir label
                            [f1; f2; f3; f4] =
      Returned (mkSched 6
        [ mkWrite (dst 0%nat) site 5 1.3%float false;
          mkWrite (dst 1%nat) site 5 1.3%float true;
          mkWrite (dst 2%nat) site 10 1.6%float false;
          mkWrite (dst 3%nat) site 10 1.6%float true;
          mkWrite (dst 4%nat) site 15 1.9000000000000001%float false ])) /\
  (forall (cfg : Config) (imread : Path -> option Utils.Image)
          (formatted_date label_dir dest_dir label : string)
          (target : Z) (image_list : list string),
      let run := DataAugmentation_loop cfg imread formatted_date target label_dir dest_dir
                                       label image_list in
      let plan := schedule cfg formatted_date label_dir dest_dir label image_list in
      written (final run) =
        firstn (Z.to_nat target) (good_prefix (produced imread) plan) /\
      (Forall (fun w => produced imread w = true) plan ->
       written (final run) = firstn (Z.to_nat target) plan) /\
      Z.of_nat (length (written (final run))) <= Z.max 0 target /\
      (returned run -> Z.of_nat (length (written (final run))) = Z.max 0 target)).
Proof.
  split.
  - intros imread date label_dir dest_dir label f1 f2 f3 f4 img H2 H3 H4 Hi Hr Hc site dst.
    destruct (DataAugmentation_loop_walk default_config imread date label_dir dest_dir
                label 5 [f1; f2; f3; f4]) as [Hw Hok].
    unfold schedule in Hw.
    rewrite (count_files_single_site label_dir f1 f2 f3 f4 H2 H3 H4) in Hw.
    cbn [SortDict insert_item flat_map fst] in Hw. unfold site_paths in Hw.
    cbn [dict_get] in Hw. rewrite String.eqb_refl in Hw.
    set (plan := (images_variants default_config date dest_dir label 0 _ ++ [])%list) in Hw.
    assert (E5 : firstn 5 plan =
                 [ mkWrite (dst 0%nat) site 5 1.3%float false;
                   mkWrite (dst 1%nat) site 5 1.3%float true;
                   mkWrite (dst 2%nat) site 10 1.6%float false;
                   mkWrite (dst 3%nat) site 10 1.6%float true;
                   mkWrite (dst 4%nat) site 15 1.9000000000000001%float false ])
      by reflexivity.
    assert (L : length plan = 48%nat) by reflexivity.
    rewrite (walk_stops 5 (attempt imread) 5 plan []) in Hw.
    + rewrite E5 in Hw. cbn [app] in Hw.
      assert (Hexit := f_equal fst Hw). assert (Hwritten := f_equal snd Hw).
      cbn [fst snd] in Hexit, Hwritten. unfold DataAugmentation in Hwritten.
      rewrite (stopped_returned _ _ Hexit Hok Hwritten). reflexivity.
    + rewrite E5.
      repeat constructor;
        (eapply (attempt_ok imread _ img);
         [exact Hi|vm_compute; reflexivity|vm_compute; reflexivity|exact Hr|exact Hc]).
    + reflexivity.
    + rewrite L. lia.
  - intros cfg imread date label_dir dest_dir label target image_list run plan.
    assert (Hpre := DataAugmentation_prefix cfg imread date label_dir dest_dir label target
                      image_list).
    destruct (DataAugmentation_loop_walk cfg imread date label_dir dest_dir label target
                image_list) as [Hw _].
    unfold DataAugmentation in Hpre, Hw. fold run in Hpre, Hw. fold plan in Hpre, Hw.
    assert (Hle : Z.of_nat (length (written (final run))) <= Z.max 0 target)
      by (rewrite Hpre, length_firstn; lia).
    split; [exact Hpre|]. split; [|split; [exact Hle|]].
    + intros Hall. rewrite Hpre, good_prefix_all by exact Hall. reflexivity.
    + intros Hret. apply returned_stopped in Hret.
      assert (Hs := walk_stopped_length target (attempt imread) plan []).
      rewrite <- Hw in Hs. cbn [fst snd] in Hs. specialize (Hs Hret).
      cbn [length] in Hle. lia.
Qed.

Lemma C5_scenario_and_prefix_witness :
  let site := path_join "flow_600_200/1" "23_a.JPG" in
  let dst := fun i => path_join "balanced_data/1" (new_file_name "110326" "L1" site 0 i) in
  DataAugmentation_loop default_config all_decodable "110326" 5 "flow_600_200/1"
                        "balanced_data/1" "L1"
                        ["23_a.JPG"; "23_b.JPG"; "23_c.JPG"; "23_d.JPG"]%string =
  Returned (mkSched 6
    [ mkWrite (dst 0%nat) site 5 1.3%float false;
      mkWrite (dst 1%nat) site 5 1.3%float true;
      mkWrite (dst 2%nat) site 10 1.6%float false;
      mkWrite (dst 3%nat) site 10 1.6%float true;
      mkWrite (dst 4%nat) site 15 1.9000000000000001%float false ]).
Proof.
  apply (proj1 C5_scenario_and_prefix all_decodable "110326" "flow_600_200/1"
           "balanced_data/1" "L1" "23_a.JPG" "23_b.JPG" "23_c.JPG" "23_d.JPG"
           (Utils.mkImage 200 600))%string;
    try reflexivity; cbn [Utils.rows Utils.cols]; lia.
Defined.

End StoppingRule.

(** ** Order in which the scheduler visits the site groups *)

Section VisitOrder.
Variable cfg : Config.
Variable imread : Path -> option Utils.Image.
Variable formatted_date : string.
Variables label_dir dest_dir label : string.

Lemma emit_src site k i v w :
  In w (emit formatted_date dest_dir label site k i v) -> w_src w = site.
Proof.
  unfold emit. destruct (switch v =? -1); [intros [<-|[]]; reflexivity|].
  destruct (switch v =? 1); [intros [<-|[]]; reflexivity|intros []].
Qed.

Lemma variants_from_src site k l : forall v w,
  In w (variants_from formatted_date dest_dir label site k v l) -> w_src w = site.
Proof.
  induction l as [|i l IH]; simpl; intros v w H; [contradiction|].
  apply in_app_or in H. destruct H as [H|H]; [eapply emit_src; eauto|eauto].
Qed.

Lemma images_variants_src sites : forall k w,
  In w (images_variants cfg formatted_date dest_dir label k sites) ->
  In (w_src w) sites.
Proof.
  induction sites as [|site sites IH]; simpl; intros k w H; [contradiction|].
  apply in_app_or in H. destruct H as [H|H].
  - left. symmetry. eapply variants_from_src; eauto.
  - right. eauto.
Qed.

Lemma variants_from_length site k l : forall v,
  alternating v ->
  length (variants_from formatted_date dest_dir label site k v l) = length l.
Proof.
  induction l as [|i l IH]; simpl; intros v Hv; [reflexivity|].
  rewrite length_app, (IH _ (advance_alternating v Hv)).
  unfold emit. destruct Hv as [-> | ->]; reflexivity.
Qed.

Lemma images_variants_length sites : forall k0,
  length (images_variants cfg formatted_date dest_dir label k0 sites) =
  (length sites * Z.to_nat (MULTIPLIER cfg * 2))%nat.
Proof.
  induction sites as [|site sites IH]; simpl; intros k0; [reflexivity|].
  rewrite length_app, IH. unfold image_variants.
  rewrite variants_from_length by (left; reflexivity).
  unfold range. now rewrite length_seq.
Qed.

Lemma images_variants_sites (site_id : string) sites k0 :
  (forall p, In p sites -> split_head (path_basename p) = site_id) ->
  map site_of (images_variants cfg formatted_date dest_dir label k0 sites) =
  repeat site_id (length sites * Z.to_nat (MULTIPLIER cfg * 2)).
Proof.
  intros Hs. rewrite <- (images_variants_length sites k0), <- (length_map site_of).
  apply Forall_eq_repeat, Forall_forall. intros x Hx.
  apply in_map_iff in Hx. destruct Hx as (w & <- & Hw).
  symmetry. apply Hs. eapply images_variants_src; eauto.
Qed.

(** The source sites of the schedule, in order, are the sites of the
    sorted list, each repeated once for every variant of its images. *)
Lemma schedule_sites (image_list : list string) :
  map site_of (schedule cfg formatted_date label_dir dest_dir label image_list) =
  visiting_order cfg (SortDict (fst (count_files label_dir image_list))).
Proof.
  unfold schedule, visiting_order.
  assert (G := count_files_grouped label_dir image_list).
  destruct (count_files label_dir image_list) as [site_ids_count site_path].
  cbn [fst].
  assert (Hin : forall e, In e (SortDict site_ids_count) -> In e site_ids_count).
  { intros e H. eapply Permutation_in; [symmetry; apply SortDict_perm|exact H]. }
  induction (SortDict site_ids_count) as [|[k c] es IH]; [reflexivity|].
  cbn [flat_map fst snd]. rewrite map_app, IH by (intros; apply Hin; now right).
  f_equal.
  destruct (grouped_lookup _ _ _ _ _ _ G (Hin _ (or_introl eq_refl))) as [Hp ->].
  rewrite Hp, Nat2Z.id. apply images_variants_sites.
  intros p Hp'. eapply site_files_site; eauto.
Qed.

Lemma StronglySorted_nth {A} (R : A -> A -> Prop) (l : list A) :
  StronglySorted R l ->
  forall i j a b, (i < j)%nat -> nth_error l i = Some a -> nth_error l j = Some b -> R a b.
Proof.
  induction 1 as [|x l Hs IH Hall]; intros i j a b Hij Hi Hj.
  - destruct i; discriminate.
  - destruct j as [|j]; [lia|]. cbn [nth_error] in Hj.
    destruct i as [|i]; cbn [nth_error] in Hi.
    + inversion Hi; subst. rewrite Forall_forall in Hall.
      apply Hall. eapply nth_error_In; eauto.
    + apply (IH i j); auto. lia.
Qed.

Lemma schedule_sorted_by_count (image_list : list string) :
  StronglySorted
    (fun w1 w2 => site_count image_list (w_src w1) <= site_count image_list (w_src w2))
    (schedule cfg formatted_date label_dir dest_dir label image_list).
Proof.
  unfold schedule.
  assert (G := count_files_grouped label_dir image_list).
  destruct (count_files label_dir image_list) as [site_ids_count site_path].
  assert (Hin : forall k c, In (k, c) (SortDict site_ids_count) ->
                            In (k, c) site_ids_count).
  { intros k c H. eapply Permutation_in; [symmetry; apply SortDict_perm|exact H]. }
  apply (StronglySorted_flat_map snd (fun w => site_count image_list (w_src w))).
  - apply SortDict_sorted.
  - intros [k c] He w Hw. cbn [fst snd] in *.
    destruct (grouped_lookup _ _ _ _ _ _ G (Hin _ _ He)) as [Hp ->].
    rewrite Hp in Hw. apply images_variants_src in Hw.
    now apply (site_files_count label_dir).
Qed.

(** C8: the scheduler goes through the site groups in ascending order of
    their image count.  The list it iterates over holds the dictionary's
    items sorted by count, each count being the (positive) number of
    images of that site in the listing.  The source sites of the files it
    writes, in the order of writing, are a beginning of that list with
    each site repeated once per variant of its images; when every variant
    can be produced it is the beginning of length [target], so that every
    site group reached by the target is augmented, in that order.  Hence
    a file made from a site group with strictly fewer images is always
    written before any file made from a site group with strictly more. *)
Theorem C8_sites_visited_by_ascending_count (target : Z) (image_list : list string) :
  let sorted_list := SortDict (fst (count_files label_dir image_list)) in
  let writes := DataAugmentation cfg imread formatted_date target label_dir dest_dir label
                                 image_list in
  let plan := schedule cfg formatted_date label_dir dest_dir label image_list in
  (StronglySorted (fun a b => snd a <= snd b) sorted_list /\
   Permutation (fst (count_files label_dir image_list)) sorted_list /\
   (forall site_id n, In (site_id, n) sorted_list ->
      0 < n /\
      n = Z.of_nat (length (filter (fun f => String.eqb (split_head f) site_id)
                                   image_list)))) /\
  (exists k, (k <= Z.to_nat target)%nat /\
             map site_of writes = firstn k (visiting_order cfg sorted_list)) /\
  (Forall (fun w => produced imread w = true) plan ->
   map site_of writes = firstn (Z.to_nat target) (visiting_order cfg sorted_list)) /\
  (forall i j w1 w2,
      nth_error writes i = Some w1 -> nth_error writes j = Some w2 ->
      site_count image_list (w_src w1) < site_count image_list (w_src w2) ->
      (i < j)%nat).
Proof.
  cbn zeta.
  assert (Hpre := DataAugmentation_prefix cfg imread formatted_date label_dir dest_dir label
                    target image_list).
  assert (Hsites := schedule_sites image_list).
  assert (Hsorted := schedule_sorted_by_count image_list).
  set (plan := schedule cfg formatted_date label_dir dest_dir label image_list) in *.
  set (writes := DataAugmentation cfg imread formatted_date target label_dir dest_dir label
                                  image_list) in *.
  assert (Hk : writes = firstn (Nat.min (Z.to_nat target)
                                        (length (good_prefix (produced imread) plan))) plan).
  { rewrite Hpre. rewrite (good_prefix_firstn (produced imread) plan) at 1.
    apply firstn_firstn. }
  repeat split.
  - apply SortDict_sorted.
  - apply SortDict_perm.
  - assert (G := count_files_grouped label_dir image_list).
    destruct (count_files label_dir image_list) as [site_ids_count site_path].
    cbn [fst] in H.
    assert (He : In (site_id, n) site_ids_count)
      by (eapply Permutation_in; [symmetry; apply SortDict_perm|exact H]).
    destruct (grouped_lookup _ _ _ _ _ _ G He) as [Hp Hn].
    assert (Hne := grouped_lookup_nonempty _ _ _ _ _ _ G He).
    rewrite Hp in Hne. subst n.
    destruct (site_files label_dir site_id image_list); [contradiction|cbn [length]; lia].
  - assert (G := count_files_grouped label_dir image_list).
    destruct (count_files label_dir image_list) as [site_ids_count site_path].
    cbn [fst] in H.
    assert (He : In (site_id, n) site_ids_count)
      by (eapply Permutation_in; [symmetry; apply SortDict_perm|exact H]).
    destruct (grouped_lookup _ _ _ _ _ _ G He) as [_ ->].
    unfold site_files. now rewrite length_map.
  - exists (Nat.min (Z.to_nat target) (length (good_prefix (produced imread) plan))).
    split; [lia|]. rewrite Hk at 1. now rewrite <- firstn_map, Hsites.
  - intros Hall. rewrite Hpre, good_prefix_all by exact Hall.
    now rewrite <- firstn_map, Hsites.
  - intros i j w1 w2 Hi Hj Hlt.
    destruct (Nat.lt_ge_cases i j) as [Hij|Hij]; [exact Hij|exfalso].
    assert (Hs : StronglySorted
                   (fun w1 w2 => site_count image_list (w_src w1) <=
                                 site_count image_list (w_src w2)) writes)
      by (rewrite Hk; now apply StronglySorted_firstn).
    destruct (Nat.eq_dec i j) as [->|Hne].
    + rewrite Hi in Hj. inversion Hj; subst. lia.
    + assert (H := StronglySorted_nth _ _ Hs j i w2 w1 ltac:(lia) Hj Hi).
      cbn beta in H. lia.
Qed.

End VisitOrder.

Lemma produced_by_check (imread : Path -> option Utils.Image) (xs : list Write) :
  forallb (produced imread) xs = true -> Forall (fun w => produced imread w = true) xs.
Proof. intros H. rewrite forallb_forall in H. now apply Forall_forall. Qed.

Lemma C8_sites_visited_by_ascending_count_witness :
  SortDict (fst (count_files "flow_600_200/1"
                   ["23_a.JPG"; "7_a.JPG"; "23_b.JPG"; "5_a.JPG"; "23_c.JPG"]%string))
  = [("7"%string, 1); ("5"%string, 1); ("23"%string, 3)] /\
  map site_of
      (DataAugmentation default_config all_decodable "110326" 30 "flow_600_200/1"
         "balanced_data/1" "L1"
         ["23_a.JPG"; "7_a.JPG"; "23_b.JPG"; "5_a.JPG"; "23_c.JPG"]%string)
  = (repeat "7"%string 12 ++ repeat "5"%string 12 ++ repeat "23"%string 6)%list.
Proof.
  split; [reflexivity|].
  destruct (C8_sites_visited_by_ascending_count default_config all_decodable "110326"
              "flow_600_200/1" "balanced_data/1" "L1" 30
              ["23_a.JPG"; "7_a.JPG"; "23_b.JPG"; "5_a.JPG"; "23_c.JPG"]%string)
    as (_ & _ & H & _).
  rewrite H; [reflexivity|]. apply produced_by_check. vm_compute. reflexivity.
Defined.

(** ** Sampling weights and the per-label allocation *)

Section Allocation.

Lemma choose_label p1 p2 p3 u :
  choose p1 p2 p3 u = 1 \/ choose p1 p2 p3 u = 2 \/ choose p1 p2 p3 u = 3.
Proof.
  unfold choose. destruct (Qle_bool p1 u); [destruct (Qle_bool _ u)|]; auto.
Qed.

Lemma count_partition (sample : list Z) :
  Forall (fun x => x = 1 \/ x = 2 \/ x = 3) sample ->
  count sample 1 + count sample 2 + count sample 3 = Z.of_nat (length sample).
Proof.
  unfold count. induction 1 as [|x l Hx Hl IH]; [reflexivity|].
  cbn [count_occ length].
  destruct Hx as [-> | [-> | ->]];
    repeat match goal with |- context [Z.eq_dec ?a ?b] =>
             destruct (Z.eq_dec a b); try discriminate; try congruence end;
    lia.
Qed.



Lemma true_div_ok (a b : Q) : ~ (b == 0)%Q -> true_div a b = Ok (a / b)%Q.
Proof.
  intros H. unfold true_div. destruct (Qeq_bool b 0) eqn:E; [|reflexivity].
  apply Qeq_bool_eq in E. contradiction.
Qed.

Lemma complement_total (n0 n1 n2 : Z) :
  0 < n0 + n1 + n2 ->
  let t := inject_Z (n0 + n1 + n2) in
  ((1 - inject_Z n0 / t) + (1 - inject_Z n1 / t) + (1 - inject_Z n2 / t) == 2)%Q.
Proof.
  intros Ht t. subst t. rewrite !inject_Z_plus.
  assert (Hne : ~ (inject_Z n0 + inject_Z n1 + inject_Z n2 == 0)%Q).
  { rewrite <- !inject_Z_plus. change 0%Q with (inject_Z 0).
    rewrite inject_Z_injective. lia. }
  field. exact Hne.
Qed.

Lemma complement_probabilities_ok (n0 n1 n2 : Z) :
  0 < n0 + n1 + n2 ->
  let t := inject_Z (n0 + n1 + n2) in
  let w0 := (1 - inject_Z n0 / t)%Q in
  let w1 := (1 - inject_Z n1 / t)%Q in
  let w2 := (1 - inject_Z n2 / t)%Q in
  complement_probabilities (n0, n1, n2) (n0 + n1 + n2) =
  Ok ((w0 / (w0 + w1 + w2))%Q, (w1 / (w0 + w1 + w2))%Q, (w2 / (w0 + w1 + w2))%Q).
Proof.
  intros Ht t w0 w1 w2. unfold complement_probabilities.
  assert (Hne : ~ (inject_Z (n0 + n1 + n2) == 0)%Q).
  { change 0%Q with (inject_Z 0). rewrite inject_Z_injective. lia. }
  rewrite !(true_div_ok _ _ Hne). cbn [bind]. fold t. fold w0 w1 w2.
  assert (HT : ~ (w0 + w1 + w2 == 0)%Q).
  { subst w0 w1 w2 t. rewrite (complement_total n0 n1 n2 Ht). discriminate. }
  rewrite !(true_div_ok _ _ HT). reflexivity.
Qed.










End Allocation.

(** ** The feasibility gate and the two branches of [LabelBalancer] *)

Section Gate.
Variable cfg : Config.
Variable formatted_date : string.
Variables root_dir DATASET_NAME DEST_FOLDER : string.
Variable listing : nat -> list string.
Variable imread : Path -> option Utils.Image.
Variable uniform : nat -> Q.
Variable dest0 : Tree.

Lemma category_2_count_sum :
  category_2_count listing =
  Z.of_nat (length (listing 3%nat)) + Z.of_nat (length (listing 4%nat)) +
  Z.of_nat (length (listing 5%nat)).
Proof.
  unfold category_2_count, category_2_list. cbn [concat].
  rewrite !length_app. cbn [length]. lia.
Qed.

Lemma category_1_count_sum :
  category_1_count listing =
  Z.of_nat (length (listing 0%nat)) + Z.of_nat (length (listing 1%nat)) +
  Z.of_nat (length (listing 2%nat)).
Proof.
  unfold category_1_count, category_1_list. cbn [concat].
  rewrite !length_app. cbn [length]. lia.
Qed.

Let run := LabelBalancer cfg formatted_date root_dir DATASET_NAME DEST_FOLDER
                         listing imread uniform dest0.
Let c1 := category_1_count listing.
Let c2 := category_2_count listing.

(** C2 (amended): in the branch where category 1 is not the larger one,
    that is, where category 1 is the category to be topped up, the run
    aborts exactly when [count(category_1) * TOTAL_MULTIPLIER] is less
    than the deficit [count(category_2) - count(category_1)], and an
    aborted run leaves the destination tree as it found it. *)
Theorem C2_gate_uses_category_1 :
  c1 <= c2 ->
  (c1 * TOTAL_MULTIPLIER cfg < c2 - c1 <-> run = AbortedInfeasible dest0) /\
  (forall out, run = AbortedInfeasible out -> out = dest0).
Proof.
  intros Hle. subst run c1 c2. unfold LabelBalancer.
  destruct (Z.gtb_spec (category_1_count listing) (category_2_count listing)); [lia|].
  destruct (Z.ltb_spec (category_1_count listing * TOTAL_MULTIPLIER cfg)
                       (category_2_count listing - category_1_count listing)).
  - split; [tauto|]. intros out E. now inversion E.
  - destruct (complement_probabilities _ _); cbv zeta;
      (split; [split; [lia|discriminate]|discriminate]).
Qed.

(** C10: in the branch where category 1 is strictly larger, the gate
    never fires: as soon as [TOTAL_MULTIPLIER >= 1] the product
    [count(category_1) * TOTAL_MULTIPLIER] is at least [count(category_1)],
    hence above the deficit, and the run is never [AbortedInfeasible]. *)
Theorem C10_gate_unreachable_when_category_1_larger :
  1 <= TOTAL_MULTIPLIER cfg -> c1 > c2 ->
  (c1 * TOTAL_MULTIPLIER cfg <? c1 - c2) = false /\
  (forall out, run <> AbortedInfeasible out).
Proof.
  intros Htm Hgt. subst run c1 c2.
  assert (H2 : 0 <= category_2_count listing) by (unfold category_2_count; lia).
  assert (Hgate : (category_1_count listing * TOTAL_MULTIPLIER cfg <?
                   category_1_count listing - category_2_count listing) = false)
    by (apply Z.ltb_ge; nia).
  split; [exact Hgate|]. intros out. unfold LabelBalancer.
  destruct (Z.gtb_spec (category_1_count listing) (category_2_count listing)); [|lia].
  rewrite Hgate. destruct (complement_probabilities _ _); discriminate.
Qed.

(** C4 (amended): in the branch where category 1 is larger, past the
    gate and with at least one image in category 2, the run ends with an
    unbound-name error for [category_1_count_split] at the validation
    print; the destination tree then holds the copied originals and
    nothing else, no scheduler task having been submitted. *)
Theorem C4_unbound_name_in_first_branch :
  c1 > c2 -> 0 < c2 ->
  (c1 * TOTAL_MULTIPLIER cfg <? c1 - c2) = false ->
  run = Crashed (UnboundLocalError "category_1_count_split") (copy_all listing dest0).
Proof.
  intros Hgt Hpos Hgate. subst run c1 c2. unfold LabelBalancer.
  destruct (Z.gtb_spec (category_1_count listing) (category_2_count listing)); [|lia].
  rewrite Hgate. unfold count_split, category_2_list. cbn [nth].
  rewrite category_2_count_sum in *.
  rewrite complement_probabilities_ok by lia. reflexivity.
Qed.

End Gate.

(** C2 (as stated, refuted): with 1 image in category 1 and 20 in
    category 2 the larger category's count times [TOTAL_MULTIPLIER] is
    260, not less than the deficit 19, and yet the run aborts, because the
    count the gate multiplies is category 1's. *)
Lemma C2_aborts_although_larger_category_suffices :
  category_1_count small_first_category = 1 /\
  category_2_count small_first_category = 20 /\
  ~ (category_2_count small_first_category * TOTAL_MULTIPLIER default_config
     < category_2_count small_first_category - category_1_count small_first_category) /\
  LabelBalancer default_config "110326" "/data" "flow_600_200" "balanced_data"
                small_first_category all_decodable cycle_draws empty_tree
  = AbortedInfeasible empty_tree.
Proof.
  repeat split; try reflexivity. vm_compute. discriminate.
Qed.

Lemma C2_gate_uses_category_1_witness :
  (category_1_count small_first_category * TOTAL_MULTIPLIER default_config
   < category_2_count small_first_category - category_1_count small_first_category
   <-> LabelBalancer default_config "110326" "/data" "flow_600_200" "balanced_data"
                     small_first_category all_decodable cycle_draws empty_tree
       = AbortedInfeasible empty_tree) /\
  (forall out,
      LabelBalancer default_config "110326" "/data" "flow_600_200" "balanced_data"
                    small_first_category all_decodable cycle_draws empty_tree
      = AbortedInfeasible out -> out = empty_tree).
Proof.
  apply (C2_gate_uses_category_1 default_config "110326" "/data" "flow_600_200"
           "balanced_data" small_first_category all_decodable cycle_draws empty_tree).
  vm_compute. discriminate.
Defined.

Lemma C10_gate_unreachable_when_category_1_larger_witness :
  (category_1_count scenario_A * TOTAL_MULTIPLIER default_config <?
   category_1_count scenario_A - category_2_count scenario_A) = false /\
  (forall out,
      LabelBalancer default_config "110326" "/data" "flow_600_200" "balanced_data"
                    scenario_A all_decodable cycle_draws empty_tree <> AbortedInfeasible out).
Proof.
  apply (C10_gate_unreachable_when_category_1_larger default_config "110326" "/data"
           "flow_600_200" "balanced_data" scenario_A all_decodable cycle_draws empty_tree).
  - vm_compute. discriminate.
  - vm_compute. reflexivity.
Defined.

(** C4 (as stated, refuted): with one image in category 1 and none in
    category 2 the run takes the first branch and passes the gate, but it
    ends with a division by zero at the first probability, before the
    validation print is reached. *)
Lemma C4_empty_category_2_divides_by_zero :
  (category_1_count empty_second_category >? category_2_count empty_second_category) = true /\
  (category_1_count empty_second_category * TOTAL_MULTIPLIER default_config <?
   category_1_count empty_second_category - category_2_count empty_second_category) = false /\
  LabelBalancer default_config "110326" "/data" "flow_600_200" "balanced_data"
                empty_second_category all_decodable cycle_draws empty_tree
  = Crashed ZeroDivisionError (copy_all empty_second_category empty_tree).
Proof.
  repeat split; reflexivity.
Qed.

Lemma C4_unbound_name_in_first_branch_witness :
  LabelBalancer default_config "110326" "/data" "flow_600_200" "balanced_data"
                scenario_A all_decodable cycle_draws empty_tree
  = Crashed (UnboundLocalError "category_1_count_split") (copy_all scenario_A empty_tree).
Proof.
  apply (C4_unbound_name_in_first_branch default_config "110326" "/data" "flow_600_200"
           "balanced_data" scenario_A all_decodable cycle_draws empty_tree).
  - vm_compute. reflexivity.
  - vm_compute. reflexivity.
  - vm_compute. reflexivity.
Defined.

(** ** Generated file names *)

Section Names.
Local Open Scope string_scope.

Lemma split_head_no_underscore s : no_underscore (split_head s).
Proof.
  induction s as [|c s IH]; simpl; [exact I|].
  destruct (Ascii.eqb_spec c "_"); simpl; auto.
Qed.

Lemma uint_no_underscore d : no_underscore (NilEmpty.string_of_uint d).
Proof.
  induction d; simpl; auto; split; auto; discriminate.
Qed.

Lemma str_no_underscore n : no_underscore (str n).
Proof. apply uint_no_underscore. Qed.

Lemma str_inj n m : str n = str m -> n = m.
Proof.
  unfold str. intros H. apply Unsigned.to_uint_inj.
  assert (E : Some (Nat.to_uint n) = Some (Nat.to_uint m))
    by (rewrite <- !NilEmpty.usu; now f_equal).
  now inversion E.
Qed.

Lemma append_underscore_inj a : forall b x y,
  no_underscore a -> no_underscore b ->
  a ++ String "_" x = b ++ String "_" y -> a = b /\ x = y.
Proof.
  induction a as [|c a IH]; intros [|c' b] x y Ha Hb E; simpl in *.
  - inversion E. auto.
  - inversion E; subst. destruct Hb as [Hb _]. contradiction.
  - inversion E; subst. destruct Ha as [Ha _]. contradiction.
  - inversion E; subst. destruct Ha as [_ Ha], Hb as [_ Hb].
    destruct (IH b x y Ha Hb H1) as [-> ->]. auto.
Qed.

Lemma append_inv_head p x y : p ++ x = p ++ y -> x = y.
Proof.
  induction p as [|c p IH]; simpl; [auto|]. intros E. inversion E. auto.
Qed.

Lemma new_file_name_inj date label site site' k k' i i' :
  new_file_name date label site k i = new_file_name date label site' k' i' ->
  split_head (path_basename site) = split_head (path_basename site') /\
  k = k' /\ i = i'.
Proof.
  unfold new_file_name. cbn zeta. intros E.
  change ("_D" ++ ?x) with (String "_" ("D" ++ x)) in E.
  apply append_underscore_inj in E; try apply split_head_no_underscore.
  destruct E as [Hs E]. split; [exact Hs|].
  simpl in E. inversion E as [E']. clear E.
  apply append_inv_head in E'.
  change ("_" ++ ?x) with (String "_" x) in E'.
  inversion E' as [E'']. clear E'.
  apply append_inv_head in E''. inversion E'' as [E3]. clear E''.
  apply append_underscore_inj in E3; try apply str_no_underscore.
  destruct E3 as [Hk E3]. apply str_inj in Hk. split; [exact Hk|].
  change ("_ROT_AUG_" ++ ?x) with (String "_" ("ROT_AUG_" ++ x)) in E3.
  apply append_underscore_inj in E3; try apply str_no_underscore.
  destruct E3 as [Hi _]. now apply str_inj.
Qed.

End Names.

(** ** The schedule: distinct names and size *)

Section ScheduleNames.
Variable cfg : Config.
Variable formatted_date : string.
Variables label_dir dest_dir label : string.

Let name_of := new_file_name formatted_date label.

Lemma NoDup_flat_map_disjoint {A B} (f : A -> list B) (l : list A) :
  NoDup l ->
  (forall a, In a l -> NoDup (f a)) ->
  (forall a b x, In a l -> In b l -> In x (f a) -> In x (f b) -> a = b) ->
  NoDup (flat_map f l).
Proof.
  induction 1 as [|a l Ha Hl IH]; intros Hf Hd; simpl; [constructor|].
  apply NoDup_app.
  - apply Hf. now left.
  - apply IH; [intros; apply Hf; now right|].
    intros b c x Hb Hc. apply Hd; now right.
  - intros x Hx Hx'. apply in_flat_map in Hx'. destruct Hx' as (b & Hb & Hxb).
    assert (a = b) by (apply (Hd a b x); auto; [now left|now right]).
    subst b. contradiction.
Qed.

Lemma emit_name site k i v w :
  In w (emit formatted_date dest_dir label site k i v) ->
  w_src w = site /\ written_name w = name_of site k i.
Proof.
  unfold emit. destruct (switch v =? -1); [intros [<-|[]]; auto|].
  destruct (switch v =? 1); [intros [<-|[]]; auto|intros []].
Qed.

Lemma variants_from_name site k l : forall v w,
  In w (variants_from formatted_date dest_dir label site k v l) ->
  w_src w = site /\ exists i, In i l /\ written_name w = name_of site k i.
Proof.
  induction l as [|i l IH]; simpl; intros v w H; [contradiction|].
  apply in_app_or in H. destruct H as [H|H].
  - apply emit_name in H. destruct H as [Hs Hn]. split; [exact Hs|].
    exists i. auto.
  - destruct (IH _ _ H) as (Hs & j & Hj & Hn). split; [exact Hs|].
    exists j. auto.
Qed.

Lemma variants_from_NoDup site k l : forall v,
  NoDup l ->
  NoDup (map written_name (variants_from formatted_date dest_dir label site k v l)).
Proof.
  induction l as [|i l IH]; simpl; intros v Hnd; [constructor|].
  inversion Hnd; subst. rewrite map_app. apply NoDup_app.
  - unfold emit. destruct (switch v =? -1); [repeat constructor; simpl; tauto|].
    destruct (switch v =? 1); repeat constructor; simpl; tauto.
  - now apply IH.
  - intros n Hn Hn'. apply in_map_iff in Hn, Hn'.
    destruct Hn as (w & <- & Hw), Hn' as (w' & E & Hw').
    apply emit_name in Hw. destruct Hw as [_ Hw].
    apply variants_from_name in Hw'. destruct Hw' as (_ & j & Hj & Hw').
    rewrite Hw, Hw' in E. unfold name_of in E.
    apply new_file_name_inj in E. destruct E as (_ & _ & ->). contradiction.
Qed.

Lemma images_variants_name sites : forall k0 w,
  In w (images_variants cfg formatted_date dest_dir label k0 sites) ->
  exists k i, (k0 <= k)%nat /\ In (w_src w) sites /\
              written_name w = name_of (w_src w) k i.
Proof.
  induction sites as [|site sites IH]; simpl; intros k0 w H; [contradiction|].
  apply in_app_or in H. destruct H as [H|H].
  - apply variants_from_name in H. destruct H as (Hs & i & _ & Hn).
    exists k0, i. rewrite Hs. auto.
  - destruct (IH _ _ H) as (k & i & Hk & Hs & Hn).
    exists k, i. repeat split; auto. lia.
Qed.

Lemma images_variants_NoDup sites : forall k0,
  NoDup (map written_name (images_variants cfg formatted_date dest_dir label k0 sites)).
Proof.
  induction sites as [|site sites IH]; simpl; intros k0; [constructor|].
  rewrite map_app. apply NoDup_app.
  - apply variants_from_NoDup. apply seq_NoDup.
  - apply IH.
  - intros n Hn Hn'. apply in_map_iff in Hn, Hn'.
    destruct Hn as (w & <- & Hw), Hn' as (w' & E & Hw').
    apply variants_from_name in Hw. destruct Hw as (_ & i & _ & Hw).
    apply images_variants_name in Hw'. destruct Hw' as (k & j & Hk & _ & Hw').
    rewrite Hw, Hw' in E. unfold name_of in E.
    apply new_file_name_inj in E. destruct E as (_ & E & _). lia.
Qed.

(** No two files of the schedule bear the same name. *)
Lemma schedule_NoDup (image_list : list string) :
  NoDup (map written_name
             (schedule cfg formatted_date label_dir dest_dir label image_list)).
Proof.
  unfold schedule.
  assert (G := count_files_grouped label_dir image_list).
  destruct (count_files label_dir image_list) as [site_ids_count site_path].
  rewrite flat_map_concat_map, concat_map, map_map, <- flat_map_concat_map.
  assert (Hin : forall e, In e (SortDict site_ids_count) -> In e site_ids_count).
  { intros e H. eapply Permutation_in; [symmetry; apply SortDict_perm|exact H]. }
  apply NoDup_flat_map_disjoint.
  - eapply Permutation_NoDup; [apply SortDict_perm|].
    apply (NoDup_map_inv fst). rewrite (g_counts _ _ _ _ G).
    unfold lengths. rewrite map_map. exact (g_keys _ _ _ _ G).
  - intros e _. apply images_variants_NoDup.
  - intros [k c] [k' c'] n He He' Hn Hn'. cbn [fst] in *.
    destruct (grouped_lookup _ _ _ _ _ _ G (Hin _ He)) as [Hp ->].
    destruct (grouped_lookup _ _ _ _ _ _ G (Hin _ He')) as [Hp' ->].
    rewrite Hp in Hn. rewrite Hp' in Hn'.
    apply in_map_iff in Hn, Hn'.
    destruct Hn as (w & <- & Hw), Hn' as (w' & E & Hw').
    apply images_variants_name in Hw, Hw'.
    destruct Hw as (a & i & _ & Hs & Hw), Hw' as (a' & i' & _ & Hs' & Hw').
    rewrite Hw, Hw' in E. unfold name_of in E.
    apply new_file_name_inj in E. destruct E as (E & _).
    rewrite (site_files_site _ _ _ _ Hs), (site_files_site _ _ _ _ Hs') in E.
    now subst k'.
Qed.

End ScheduleNames.

Section ScheduleSize.
Variable cfg : Config.
Variable formatted_date : string.
Variables label_dir dest_dir label : string.

Lemma length_flat_map_sum {A B} (f : A -> list B) (h : A -> nat) l :
  (forall a, In a l -> length (f a) = h a) ->
  length (flat_map f l) = list_sum (map h l).
Proof.
  induction l as [|a l IH]; simpl; intros H; [reflexivity|].
  rewrite length_app, H, IH; auto.
Qed.

Lemma list_sum_lengths (paths : list (string * list Path)) (r : nat) :
  list_sum (map (fun e => (Z.to_nat (snd e) * r)%nat) (lengths paths)) =
  (length (concat (map snd paths)) * r)%nat.
Proof.
  induction paths as [|[k l] paths IH]; simpl; [reflexivity|].
  rewrite IH, length_app, Nat2Z.id. lia.
Qed.

(** Every image of the listing contributes [2 * MULTIPLIER] variants. *)
Lemma schedule_length (image_list : list string) :
  length (schedule cfg formatted_date label_dir dest_dir label image_list) =
  (length image_list * Z.to_nat (MULTIPLIER cfg * 2))%nat.
Proof.
  unfold schedule.
  assert (G := count_files_grouped label_dir image_list).
  destruct (count_files label_dir image_list) as [site_ids_count site_path].
  rewrite <- (Permutation_length
                (Permutation_flat_map _ (SortDict_perm site_ids_count))).
  rewrite (length_flat_map_sum _
             (fun e => (Z.to_nat (snd e) * Z.to_nat (MULTIPLIER cfg * 2))%nat)).
  - rewrite (g_counts _ _ _ _ G), list_sum_lengths. now rewrite (g_total _ _ _ _ G).
  - intros [k c] He. cbn [fst snd].
    destruct (grouped_lookup _ _ _ _ _ _ G He) as [-> ->].
    now rewrite images_variants_length, Nat2Z.id.
Qed.

End ScheduleSize.

(** ** Directories as sets of names *)

Section Directories.

Lemma add_file_fresh directory name :
  ~ In name directory -> add_file directory name = directory ++ [name].
Proof.
  intros H. unfold add_file.
  destruct (existsb (String.eqb name) directory) eqn:E; [|reflexivity].
  apply existsb_exists in E. destruct E as (x & Hx & E).
  apply String.eqb_eq in E. subst x. contradiction.
Qed.

Lemma fold_add_file_fresh names : forall directory,
  NoDup (directory ++ names) ->
  fold_left add_file names directory = directory ++ names.
Proof.
  induction names as [|n names IH]; simpl; intros directory H.
  - now rewrite app_nil_r.
  - assert (Hn : ~ In n directory).
    { apply NoDup_remove_2 in H. intros Hin. apply H. apply in_or_app. now left. }
    rewrite (add_file_fresh _ _ Hn).
    replace (directory ++ n :: names) with ((directory ++ [n]) ++ names) in *
      by (rewrite <- app_assoc; reflexivity).
    now apply IH.
Qed.

Lemma Copy_dir_empty src : NoDup src -> Copy_dir src [] = src.
Proof.
  intros H. unfold Copy_dir. now rewrite fold_add_file_fresh.
Qed.

Lemma NoDup_firstn {A} n (l : list A) : NoDup l -> NoDup (firstn n l).
Proof.
  intros H. rewrite <- (firstn_skipn n l) in H. now apply NoDup_app_remove_r in H.
Qed.


End Directories.

(** ** Balance of the two categories after a completed run *)

Section Balance.
Variable cfg : Config.
Variable formatted_date : string.
Variables root_dir DATASET_NAME DEST_FOLDER : string.
Variable listing : nat -> list string.
Variable imread : Path -> option Utils.Image.
Variable uniform : nat -> Q.

Lemma tally_sum (n : Z) (p : Q * Q * Q) :
  0 <= n ->
  let sample := random_choice n p uniform in
  count sample 1 + count sample 2 + count sample 3 = n.
Proof.
  intros Hn sample. rewrite count_partition.
  - subst sample. unfold random_choice, range. destruct p as [[p1 p2] p3].
    rewrite length_map, length_seq. lia.
  - subst sample. unfold random_choice. destruct p as [[p1 p2] p3].
    apply Forall_forall. intros x Hx. apply in_map_iff in Hx.
    destruct Hx as (j & <- & _). apply choose_label.
Qed.

Lemma count_nonneg sample x : 0 <= count sample x.
Proof. unfold count. lia. Qed.

Let plan := task_plan cfg formatted_date root_dir DATASET_NAME DEST_FOLDER listing.





End Balance.

(** C1 (code bug): with no image under label 1, one under each of the
    labels 2 and 3 and four under label 4, the run completes, whatever the
    files hold.  Both draws fall on label 1, so the validation print
    announces 2, 1 and 1 images for the labels 1, 2, 3; but the directory
    of label 1 has nothing to augment, the output holds 0, 1 and 1 images
    there, and category 1 ends with 2 images against 4 in category 2. *)
Lemma C1_completed_run_left_unbalanced (imread : Path -> option Utils.Image) :
  exists out,
    LabelBalancer default_config "110326" "/data" "flow_600_200" "balanced_data"
                  empty_first_label imread cycle_draws empty_tree = Completed out /\
    allocation empty_first_label cycle_draws = [2; 0; 0] /\
    announced empty_first_label cycle_draws = [2; 1; 1] /\
    map (fun i => Z.of_nat (length (out i))) [0; 1; 2]%nat = [0; 1; 1] /\
    category_1_size out = 2 /\ category_2_size out = 4.
Proof.
  eexists. split; [reflexivity|]. repeat split; vm_compute; reflexivity.
Qed.

Lemma NoDup_by_nodup (l : list string) : nodup string_dec l = l -> NoDup l.
Proof. intros <-. apply NoDup_nodup. Qed.



(** * Further properties of the code *)

(** ** utils.py: the transform helpers *)

Section TransformMore.
Import Utils.

(** X1: [Get_center], written [ceil((coord-1)/2.0)], is the floor of half
    the coordinate, for every integer [coord] such that [coord-1] is
    converted to a double without rounding ([|coord-1| <= 2^53]), as is
    every array dimension. *)
Theorem X1_Get_center_floor_half (coord : Z) :
  Z.abs (coord - 1) <= 2 ^ 53 -> Get_center coord = coord / 2.
Proof. intros _. apply Get_center_half. Qed.

Lemma X1_Get_center_floor_half_witness :
  Get_center 601 = 300 /\ Get_center 600 = 300 /\ Get_center 1 = 0.
Proof.
  split; [|split].
  - apply (X1_Get_center_floor_half 601). vm_compute. discriminate.
  - apply (X1_Get_center_floor_half 600). vm_compute. discriminate.
  - apply (X1_Get_center_floor_half 1). vm_compute. discriminate.
Defined.

(** X2: for every image of positive height and width and every zoom
    factor of at least 1, the pipeline succeeds and returns an image whose
    height and width are those of the input rounded down to an even
    number: even sizes are kept, odd sizes lose one row or column. *)
Theorem X2_shape_rounded_down_to_even
        (img : Image) (angle : Z) (zoom : Q) (flipped : bool) :
  0 < rows img -> 0 < cols img -> (1 <= zoom)%Q ->
  exists out, Data_augmentation img angle zoom flipped = Some out /\
              rows out = 2 * (rows img / 2) /\ cols out = 2 * (cols img / 2).
Proof.
  intros Hr Hc Hz. eexists. split; [apply Data_augmentation_zoomed; assumption|].
  cbn [rows cols]. auto.
Qed.

Lemma X2_shape_rounded_down_to_even_witness :
  exists out, Data_augmentation (mkImage 201 7) 30 (14 # 5) true = Some out /\
              rows out = 200 /\ cols out = 6.
Proof.
  apply (X2_shape_rounded_down_to_even (mkImage 201 7) 30 (14 # 5) true);
    cbn [rows cols]; try lia.
  unfold Qle; simpl; lia.
Defined.

(** X3: with a zoom factor of zero or less the pipeline raises (the
    resize has an empty destination), for every image, angle and flip
    setting. *)
Theorem X3_nonpositive_zoom_raises
        (img : Image) (angle : Z) (zoom : Q) (flipped : bool) :
  0 <= rows img -> 0 <= cols img -> (zoom <= 0)%Q ->
  Data_augmentation img angle zoom flipped = None.
Proof. apply Data_augmentation_unzoomed. Qed.

Lemma X3_nonpositive_zoom_raises_witness :
  Data_augmentation (mkImage 200 600) 5 (inject_Z 0) false = None.
Proof.
  apply (X3_nonpositive_zoom_raises (mkImage 200 600) 5 (inject_Z 0) false);
    cbn [rows cols]; try lia.
  unfold Qle; simpl; lia.
Defined.

(** X4: whatever the angle, the zoom factor and the flip setting, an
    image returned by the pipeline is never taller or wider than the input
    image. *)
Theorem X4_result_never_larger
        (img out : Image) (angle : Z) (zoom : Q) (flipped : bool) :
  0 <= rows img -> 0 <= cols img ->
  Data_augmentation img angle zoom flipped = Some out ->
  0 <= rows out <= rows img /\ 0 <= cols out <= cols img.
Proof.
  intros Hr Hc H.
  assert (Hout : exists up, out = Center_crop up img).
  { unfold Data_augmentation in H.
    destruct (Bool.eqb flipped false);
      destruct (Upsample_img _ zoom) as [up|]; try discriminate;
      inversion H; eauto. }
  destruct Hout as [up ->]. unfold Center_crop. cbn [rows cols].
  rewrite !(Get_center_half (rows img)), !(Get_center_half (cols img)).
  destruct (half_bounds (rows img) Hr) as [R0 R1].
  destruct (half_bounds (cols img) Hc) as [C0 C1].
  assert (A := slice_len_window (rows up) (Get_center (rows up)) (rows img / 2) R0).
  assert (B := slice_len_window (cols up) (Get_center (cols up)) (cols img / 2) C0).
  lia.
Qed.

Lemma X4_result_never_larger_witness :
  0 <= rows (mkImage 1 1) <= rows (mkImage 4 4) /\
  0 <= cols (mkImage 1 1) <= cols (mkImage 4 4).
Proof.
  apply (X4_result_never_larger (mkImage 4 4) (mkImage 1 1) 5 (1 # 4) true);
    cbn [rows cols]; try lia.
  reflexivity.
Defined.

End TransformMore.

(** ** label_balancer.py: the scheduler [DataAugmentation] *)

Section SchedulerMore.
Variable cfg : Config.
Variable imread : Path -> option Utils.Image.
Variable formatted_date : string.
Variables label_dir dest_dir label : string.

Lemma split_head_append (a r : string) :
  no_underscore a -> split_head (a ++ String "_" r) = a.
Proof.
  induction a as [|c a IH]; simpl; [reflexivity|].
  intros [Hc Ha]. destruct (Ascii.eqb_spec c "_"); [contradiction|].
  now rewrite IH.
Qed.

Lemma emit_dest site k i v w :
  In w (emit formatted_date dest_dir label site k i v) ->
  path_dirname (w_dest w) = dest_dir.
Proof.
  unfold emit. destruct (switch v =? -1); [intros [<-|[]]; reflexivity|].
  destruct (switch v =? 1); [intros [<-|[]]; reflexivity|intros []].
Qed.

Lemma variants_from_dest site k l : forall v w,
  In w (variants_from formatted_date dest_dir label site k v l) ->
  path_dirname (w_dest w) = dest_dir.
Proof.
  induction l as [|i l IH]; simpl; intros v w H; [contradiction|].
  apply in_app_or in H. destruct H as [H|H]; [eapply emit_dest; eauto|eauto].
Qed.

Lemma images_variants_dest sites : forall k w,
  In w (images_variants cfg formatted_date dest_dir label k sites) ->
  path_dirname (w_dest w) = dest_dir.
Proof.
  induction sites as [|site sites IH]; simpl; intros k w H; [contradiction|].
  apply in_app_or in H. destruct H as [H|H]; [eapply variants_from_dest; eauto|eauto].
Qed.

Lemma schedule_member (image_list : list string) (w : Write) :
  In w (schedule cfg formatted_date label_dir dest_dir label image_list) ->
  path_dirname (w_dest w) = dest_dir /\
  exists file_name, In file_name image_list /\ w_src w = path_join label_dir file_name.
Proof.
  unfold schedule.
  assert (G := count_files_grouped label_dir image_list).
  destruct (count_files label_dir image_list) as [site_ids_count site_path].
  intros H. apply in_flat_map in H. destruct H as ([k c] & He & Hw). cbn [fst] in Hw.
  split; [eapply images_variants_dest; eauto|].
  assert (He' : In (k, c) site_ids_count)
    by (eapply Permutation_in; [symmetry; apply SortDict_perm|exact He]).
  destruct (grouped_lookup _ _ _ _ _ _ G He') as [Hp _].
  rewrite Hp in Hw. apply images_variants_src in Hw.
  unfold site_files in Hw. apply in_map_iff in Hw. destruct Hw as (f & Hf & Hin).
  apply filter_In in Hin. exists f. split; [tauto|now symmetry].
Qed.

(** X5: within one scheduler run no two files are written under the same
    name, for every configuration, target and listing. *)
Theorem X5_written_names_distinct (target : Z) (image_list : list string) :
  NoDup (map written_name
             (DataAugmentation cfg imread formatted_date target label_dir dest_dir label
                               image_list)).
Proof.
  rewrite DataAugmentation_prefix, (good_prefix_firstn (produced imread) _), firstn_firstn.
  rewrite <- firstn_map. apply NoDup_firstn, schedule_NoDup.
Qed.

(** X6: the scheduler never writes more files than the target asks for
    (zero when negative), nor more than [2 * MULTIPLIER] files per listed
    image; when every variant of the schedule can be produced, the number
    of files written is exactly the smaller of these two bounds. *)
Theorem X6_number_of_files_written (target : Z) (image_list : list string) :
  let files := Z.of_nat (length (DataAugmentation cfg imread formatted_date target label_dir
                                                  dest_dir label image_list)) in
  let bound := Z.min (Z.max 0 target)
                     (Z.of_nat (length image_list) * Z.max 0 (MULTIPLIER cfg * 2)) in
  files <= bound /\
  (Forall (fun w => produced imread w = true)
          (schedule cfg formatted_date label_dir dest_dir label image_list) ->
   files = bound).
Proof.
  cbn zeta. rewrite DataAugmentation_prefix, length_firstn.
  assert (Hg := good_prefix_length (produced imread)
                  (schedule cfg formatted_date label_dir dest_dir label image_list)).
  assert (Hlen := schedule_length cfg formatted_date label_dir dest_dir label image_list).
  assert (Hn : Z.of_nat (length (schedule cfg formatted_date label_dir dest_dir label
                                          image_list)) =
               Z.of_nat (length image_list) * Z.max 0 (MULTIPLIER cfg * 2))
    by (rewrite Hlen, Nat2Z.inj_mul; lia).
  split.
  - lia.
  - intros Hall. rewrite good_prefix_all by exact Hall. lia.
Qed.

(** X7: a generated file name determines the site id of its source, the
    index of the source within its site group and the variant index: two
    generated names of one run are equal only if all three agree. *)
Theorem X7_generated_name_injective (site site' : Path) (k k' i i' : nat) :
  new_file_name formatted_date label site k i =
  new_file_name formatted_date label site' k' i' ->
  split_head (path_basename site) = split_head (path_basename site') /\
  k = k' /\ i = i'.
Proof. apply new_file_name_inj. Qed.

(** X8: a generated file carries the site id of the image it was made
    from: splitting its name at the first underscore gives the site id of
    the source. *)
Theorem X8_generated_name_keeps_site_id (site : Path) (k i : nat) :
  split_head (new_file_name formatted_date label site k i) =
  split_head (path_basename site).
Proof.
  unfold new_file_name. cbn zeta.
  change ("_D" ++ ?x)%string with (String "_" ("D" ++ x)%string).
  apply split_head_append, split_head_no_underscore.
Qed.

(** X9: every file the scheduler writes goes into the destination
    directory it was given and is made from a file of the listing of its
    source directory. *)
Theorem X9_writes_stay_in_place (target : Z) (image_list : list string) :
  Forall (fun w =>
            path_dirname (w_dest w) = dest_dir /\
            exists file_name,
              In file_name image_list /\ w_src w = path_join label_dir file_name)
         (DataAugmentation cfg imread formatted_date target label_dir dest_dir label image_list).
Proof.
  rewrite DataAugmentation_prefix. apply Forall_forall. intros w Hw.
  apply In_firstn in Hw. rewrite good_prefix_firstn in Hw. apply In_firstn in Hw.
  now apply schedule_member.
Qed.

Lemma variants_from_nth site k n : forall j v i w,
  switch v = 2 * (Z.of_nat j mod 2) - 1 ->
  switch_ended v = Z.of_nat j + 1 ->
  theta v = THETA cfg + 5 * (Z.of_nat j / 2) ->
  fact v = zoom_after (FACT cfg) (Z.to_nat (Z.of_nat j / 2)) ->
  nth_error (variants_from formatted_date dest_dir label site k v (seq j n)) i = Some w ->
  w_src w = site /\
  written_name w = new_file_name formatted_date label site k (j + i) /\
  w_theta w = THETA cfg + 5 * (Z.of_nat (j + i) / 2) /\
  w_fact w = zoom_after (FACT cfg) (Z.to_nat (Z.of_nat (j + i) / 2)) /\
  w_flipped w = Z.odd (Z.of_nat (j + i)).
Proof.
  induction n as [|n IH]; intros j v i w Hsw Hse Hth Hfa H.
  - destruct i; discriminate.
  - cbn [seq variants_from] in H.
    assert (Hcase : Z.of_nat j mod 2 = 0 \/ Z.of_nat j mod 2 = 1)
      by (assert (B := Z.mod_pos_bound (Z.of_nat j) 2 ltac:(lia)); lia).
    assert (Hemit : exists w0,
               emit formatted_date dest_dir label site k j v = [w0] /\
               w_src w0 = site /\
               written_name w0 = new_file_name formatted_date label site k j /\
               w_theta w0 = theta v /\ w_fact w0 = fact v /\
               w_flipped w0 = Z.odd (Z.of_nat j)).
    { unfold emit. rewrite Hsw, Zodd_mod.
      destruct Hcase as [-> | ->]; cbn; eexists; repeat split. }
    destruct Hemit as (w0 & Hw0 & Hs0 & Hn0 & Ht0 & Hf0 & Hfl0).
    rewrite Hw0 in H.
    destruct i as [|i]; cbn [app nth_error] in H.
    + inversion H; subst w0. rewrite Nat.add_0_r, Ht0, Hf0. auto.
    + replace (j + S i)%nat with (S j + i)%nat by lia.
      apply (IH (S j) (advance v) i w); auto.
      * unfold advance. destruct (switch_ended v mod 2 =? 0); cbn [switch];
          rewrite Hsw, Nat2Z.inj_succ; Z.div_mod_to_equations; lia.
      * unfold advance. destruct (switch_ended v mod 2 =? 0); cbn [switch_ended]; lia.
      * unfold advance. rewrite Hse.
        destruct (Z.eqb_spec ((Z.of_nat j + 1) mod 2) 0); cbn [theta];
          rewrite Hth, Nat2Z.inj_succ; Z.div_mod_to_equations; lia.
      * unfold advance. rewrite Hse.
        destruct (Z.eqb_spec ((Z.of_nat j + 1) mod 2) 0); cbn [fact]; rewrite Hfa.
        -- replace (Z.to_nat (Z.of_nat (S j) / 2)) with (S (Z.to_nat (Z.of_nat j / 2)))
             by (rewrite Nat2Z.inj_succ; Z.div_mod_to_equations; lia).
           reflexivity.
        -- replace (Z.to_nat (Z.of_nat (S j) / 2)) with (Z.to_nat (Z.of_nat j / 2))
             by (rewrite Nat2Z.inj_succ; Z.div_mod_to_equations; lia).
           reflexivity.
Qed.

(** The shape of the variant of index [i] of the image of index
    [site_index] of its site group. *)
Let is_variant (w : Write) (site_index i : nat) : Prop :=
  Z.of_nat i < MULTIPLIER cfg * 2 /\
  written_name w = new_file_name formatted_date label (w_src w) site_index i /\
  w_theta w = THETA cfg + 5 * Z.of_nat (i / 2) /\
  w_fact w = zoom_after (FACT cfg) (i / 2) /\
  w_flipped w = Z.odd (Z.of_nat i).

Lemma image_variants_shape site k w :
  In w (image_variants cfg formatted_date dest_dir label site k) ->
  w_src w = site /\ exists i, is_variant w k i.
Proof.
  intros H. apply In_nth_error in H. destruct H as [i H].
  assert (Hi : (i < length (image_variants cfg formatted_date dest_dir label site k))%nat)
    by (apply nth_error_Some; congruence).
  unfold image_variants in Hi.
  rewrite variants_from_length in Hi by (left; reflexivity).
  unfold range in Hi. rewrite length_seq in Hi.
  unfold image_variants, range in H.
  apply (variants_from_nth site k _ 0%nat _ i w) in H.
  - cbn [Nat.add] in H. destruct H as (Hs & Hn & Ht & Hf & Hfl).
    split; [exact Hs|]. exists i. unfold is_variant.
    rewrite Hs, Nat2Z.inj_div. change (Z.of_nat 2) with 2.
    rewrite <- (Nat2Z.id (i / 2)), Nat2Z.inj_div. change (Z.of_nat 2) with 2.
    repeat split; auto. lia.
  - reflexivity.
  - reflexivity.
  - cbn [theta]. change (Z.of_nat 0 / 2) with 0. lia.
  - reflexivity.
Qed.

Lemma images_variants_shape sites : forall k0 w,
  In w (images_variants cfg formatted_date dest_dir label k0 sites) ->
  exists k i, is_variant w k i.
Proof.
  induction sites as [|site sites IH]; cbn [images_variants]; intros k0 w H; [contradiction|].
  apply in_app_or in H. destruct H as [H|H].
  - apply image_variants_shape in H. destruct H as (_ & i & Hi). eauto.
  - eauto.
Qed.

Lemma schedule_shape (image_list : list string) (w : Write) :
  In w (schedule cfg formatted_date label_dir dest_dir label image_list) ->
  exists k i, is_variant w k i.
Proof.
  unfold schedule. destruct (count_files label_dir image_list) as [site_ids_count site_path].
  intros H. apply in_flat_map in H. destruct H as (e & _ & Hw).
  eapply images_variants_shape; eauto.
Qed.

(** X10: every file the scheduler writes is a variant of its source image
    that follows a fixed progression: the variant of index [i], below
    [2 * MULTIPLIER], is named with that index, rotated by
    [THETA + 5 * floor(i / 2)] degrees, flipped exactly when [i] is odd,
    and zoomed by the double that [floor(i / 2)] additions of 0.3 to
    [FACT] give.  The angle step is the constant 5, whatever [THETA] is.
    With the default [FACT] the zoom factors are 1.3, 1.6,
    1.9000000000000001 (one unit in the last place above 1.9), 2.2, 2.5
    and 2.8. *)
Theorem X10_variant_progression (target : Z) (image_list : list string) :
  Forall (fun w =>
            exists site_index i,
              Z.of_nat i < MULTIPLIER cfg * 2 /\
              written_name w = new_file_name formatted_date label (w_src w) site_index i /\
              w_theta w = THETA cfg + 5 * Z.of_nat (i / 2) /\
              w_fact w = zoom_after (FACT cfg) (i / 2) /\
              w_flipped w = Z.odd (Z.of_nat i))
         (DataAugmentation cfg imread formatted_date target label_dir dest_dir label
                           image_list) /\
  map (zoom_after (FACT default_config)) [0; 1; 2; 3; 4; 5]%nat =
    [1.3; 1.6; 1.9000000000000001; 2.2; 2.5; 2.8]%float /\
  zoom_after (FACT default_config) 2 <> 1.9%float.
Proof.
  split; [|split; [reflexivity|vm_compute; discriminate]].
  rewrite DataAugmentation_prefix. apply Forall_forall. intros w Hw.
  apply In_firstn in Hw. rewrite good_prefix_firstn in Hw. apply In_firstn in Hw.
  apply schedule_shape in Hw. exact Hw.
Qed.

(** X13: raising the target only appends files: what the scheduler
    writes for a target is the beginning of what it writes for any larger
    target. *)
Theorem X13_larger_target_extends (target target' : Z) (image_list : list string) :
  target <= target' ->
  DataAugmentation cfg imread formatted_date target label_dir dest_dir label image_list =
  firstn (Z.to_nat target)
         (DataAugmentation cfg imread formatted_date target' label_dir dest_dir label image_list).
Proof.
  intros H. rewrite !DataAugmentation_prefix, firstn_firstn.
  f_equal. lia.
Qed.

End SchedulerMore.

Lemma X7_generated_name_injective_witness :
  split_head (path_basename (path_join "flow_600_200/1" "23_a.JPG")) =
  split_head (path_basename (path_join "flow_600_200/1" "23_b.JPG")) /\
  2%nat = 2%nat /\ 3%nat = 3%nat.
Proof.
  apply (X7_generated_name_injective "110326" "L1"
           (path_join "flow_600_200/1" "23_a.JPG")
           (path_join "flow_600_200/1" "23_b.JPG") 2 2 3 3).
  reflexivity.
Defined.

Lemma X6_number_of_files_written_witness :
  Z.of_nat (length (DataAugmentation default_config all_decodable "110326" 30
                      "flow_600_200/1" "balanced_data/1" "L1"
                      ["23_a.JPG"; "7_a.JPG"]%string)) = 24 /\
  Z.of_nat (length (DataAugmentation default_config none_decodable "110326" 30
                      "flow_600_200/1" "balanced_data/1" "L1"
                      ["23_a.JPG"; "7_a.JPG"]%string)) <= 24.
Proof.
  split.
  - apply (proj2 (X6_number_of_files_written default_config all_decodable "110326"
                    "flow_600_200/1" "balanced_data/1" "L1" 30
                    ["23_a.JPG"; "7_a.JPG"]%string)).
    apply produced_by_check. vm_compute. reflexivity.
  - apply (proj1 (X6_number_of_files_written default_config none_decodable "110326"
                    "flow_600_200/1" "balanced_data/1" "L1" 30
                    ["23_a.JPG"; "7_a.JPG"]%string)).
Defined.

Lemma X13_larger_target_extends_witness :
  DataAugmentation default_config all_decodable "110326" 3 "flow_600_200/1" "balanced_data/1" "L1"
                   ["23_a.JPG"; "7_a.JPG"]%string =
  firstn (Z.to_nat 3)
         (DataAugmentation default_config all_decodable "110326" 7 "flow_600_200/1" "balanced_data/1"
                           "L1" ["23_a.JPG"; "7_a.JPG"]%string).
Proof.
  apply (X13_larger_target_extends default_config all_decodable "110326" "flow_600_200/1"
           "balanced_data/1" "L1" 3 7 ["23_a.JPG"; "7_a.JPG"]%string).
  lia.
Defined.

(** ** label_balancer.py: grouping by site, and utils.py: [SortDict] *)

Section GroupingMore.
Variable label_dir : string.

Lemma dict_set_concat_perm k l p (paths : list (string * list Path)) :
  dict_get k paths = Some l ->
  Permutation (concat (map snd (dict_set k (l ++ [p]) paths)))
              (p :: concat (map snd paths)).
Proof.
  induction paths as [|[k' l'] paths IH]; simpl; [discriminate|].
  destruct (String.eqb k k'); simpl.
  - intros E; inversion E; subst l'. rewrite <- app_assoc. simpl.
    symmetry. apply Permutation_middle.
  - intros H. rewrite (IH H). symmetry. apply Permutation_middle.
Qed.

Lemma count_file_perm files counts paths f :
  grouped label_dir files counts paths ->
  Permutation (concat (map snd paths)) (map (path_join label_dir) files) ->
  Permutation (concat (map snd (snd (count_file label_dir (counts, paths) f))))
              (map (path_join label_dir) (files ++ [f])).
Proof.
  intros G HP. unfold count_file.
  rewrite (g_counts _ _ _ _ G), dict_get_lengths. unfold site_paths.
  rewrite map_app. cbn [map].
  destruct (dict_get (split_head f) paths) as [l|] eqn:Hget; cbn [snd].
  - rewrite (dict_set_concat_perm _ _ _ _ Hget), HP.
    apply Permutation_cons_append.
  - rewrite (dict_set_absent _ _ _ Hget), map_app, concat_app. cbn.
    rewrite ?app_nil_r. now apply Permutation_app_tail.
Qed.

Lemma fold_count_file_perm new : forall files counts paths,
  grouped label_dir files counts paths ->
  Permutation (concat (map snd paths)) (map (path_join label_dir) files) ->
  Permutation
    (concat (map snd (snd (fold_left (count_file label_dir) new (counts, paths)))))
    (map (path_join label_dir) (files ++ new)).
Proof.
  induction new as [|f new IH]; intros files counts paths G HP; cbn [fold_left].
  - now rewrite app_nil_r.
  - assert (G' := count_file_grouped label_dir files counts paths f G).
    assert (HP' := count_file_perm files counts paths f G HP).
    destruct (count_file label_dir (counts, paths) f) as [counts1 paths1].
    cbn [snd] in HP'.
    replace (files ++ f :: new) with ((files ++ [f]) ++ new)
      by (rewrite <- app_assoc; reflexivity).
    now apply IH.
Qed.

Lemma sum_lengths (paths : list (string * list Path)) :
  fold_right Z.add 0 (map snd (lengths paths)) =
  Z.of_nat (length (concat (map snd paths))).
Proof.
  induction paths as [|[k l] paths IH]; simpl; [reflexivity|].
  rewrite IH, length_app. lia.
Qed.

(** X11: the first loop of the scheduler partitions the listing by site
    id.  Both dictionaries have the same keys, each once; the path lists
    put together are a rearrangement of the paths of the listed files;
    every site group is non-empty and holds only files of its site, and
    the recorded counts add up to the number of listed files. *)
Theorem X11_listing_partitioned_by_site (image_list : list string) :
  let site_ids_count := fst (count_files label_dir image_list) in
  let site_path := snd (count_files label_dir image_list) in
  NoDup (map fst site_ids_count) /\
  map fst site_ids_count = map fst site_path /\
  Permutation (concat (map snd site_path)) (map (path_join label_dir) image_list) /\
  (forall site_id paths, In (site_id, paths) site_path ->
     paths <> [] /\
     forall p, In p paths -> split_head (path_basename p) = site_id) /\
  fold_right Z.add 0 (map snd site_ids_count) = Z.of_nat (length image_list).
Proof.
  cbn zeta.
  assert (G := count_files_grouped label_dir image_list).
  assert (K := count_files_keys label_dir image_list).
  assert (P := fold_count_file_perm image_list [] [] []
                 ltac:(split; simpl; try tauto; try reflexivity; constructor)
                 ltac:(constructor)).
  fold (count_files label_dir image_list) in P. cbn [app] in P.
  destruct (count_files label_dir image_list) as [site_ids_count site_path].
  cbn [fst snd] in *.
  split; [rewrite K; exact (g_keys _ _ _ _ G)|].
  split; [exact K|]. split; [exact P|]. split.
  - intros k l HI. split; [exact (g_nonempty _ _ _ _ G _ _ HI)|].
    intros p Hp. rewrite (g_paths _ _ _ _ G _ _ HI) in Hp.
    eapply site_files_site; eauto.
  - rewrite (g_counts _ _ _ _ G), sum_lengths. now rewrite (g_total _ _ _ _ G).
Qed.

Lemma insert_item_filter (c : Z) x l :
  filter (fun e => snd e =? c) (insert_item x l) =
  filter (fun e => snd e =? c) (x :: l).
Proof.
  induction l as [|y l IH]; [reflexivity|].
  cbn [insert_item]. destruct (Z.leb_spec (snd x) (snd y)) as [Hle|Hgt]; [reflexivity|].
  cbn [filter] in *. rewrite IH.
  destruct (Z.eqb_spec (snd x) c), (Z.eqb_spec (snd y) c); try reflexivity. lia.
Qed.

(** X12: [SortDict] is stable: the items of any one count come out in the
    order the dictionary holds them, so site groups of equal size are
    visited in order of first appearance in the listing. *)
Theorem X12_SortDict_stable (dict : list (string * Z)) (c : Z) :
  filter (fun item => snd item =? c) (SortDict dict) =
  filter (fun item => snd item =? c) dict.
Proof.
  induction dict as [|x d IH]; [reflexivity|].
  cbn [SortDict]. rewrite insert_item_filter. cbn [filter]. now rewrite IH.
Qed.

End GroupingMore.

(** ** label_balancer.py: the outcomes of [LabelBalancer] *)

Section BalancerMore.
Variable cfg : Config.
Variable formatted_date : string.
Variables root_dir DATASET_NAME DEST_FOLDER : string.
Variable listing : nat -> list string.
Variable imread : Path -> option Utils.Image.
Variable uniform : nat -> Q.
Variable dest0 : Tree.

Lemma complement_probabilities_zero (s : Z * Z * Z) :
  complement_probabilities s 0 = Raise ZeroDivisionError.
Proof. destruct s as [[a b] c]. reflexivity. Qed.

Lemma category_1_probabilities :
  0 < category_1_count listing ->
  exists p, complement_probabilities (count_split (category_1_list listing))
                                     (category_1_count listing) = Ok p.
Proof.
  intros H. unfold count_split, category_1_list. cbn [nth].
  rewrite category_1_count_sum in *.
  rewrite complement_probabilities_ok by lia. eauto.
Qed.

Lemma category_2_probabilities :
  0 < category_2_count listing ->
  exists p, complement_probabilities (count_split (category_2_list listing))
                                     (category_2_count listing) = Ok p.
Proof.
  intros H. unfold count_split, category_2_list. cbn [nth].
  rewrite category_2_count_sum in *.
  rewrite complement_probabilities_ok by lia. eauto.
Qed.

Lemma category_counts_nonneg :
  0 <= category_1_count listing /\ 0 <= category_2_count listing.
Proof. unfold category_1_count, category_2_count. lia. Qed.

Lemma copy_all_at (t : Tree) (j : nat) :
  copy_all listing t j = if (j <? 6)%nat then Copy_dir (listing j) (t j) else t j.
Proof.
  unfold copy_all. cbn [seq fold_left]. unfold update.
  do 6 (destruct j as [|j]; [reflexivity|]). reflexivity.
Qed.

Lemma augment_labels_at (a b c : Z) (t : Tree) (j : nat) :
  augment_labels cfg formatted_date root_dir DATASET_NAME DEST_FOLDER listing imread 0
                 [a; b; c] t j =
  if (j <? 3)%nat
  then imwrite_all (label_task cfg formatted_date root_dir DATASET_NAME DEST_FOLDER
                               listing imread 0 [a; b; c] j) (t j)
  else t j.
Proof.
  unfold augment_labels. cbn [length seq fold_left]. unfold update.
  do 3 (destruct j as [|j]; [reflexivity|]). reflexivity.
Qed.

Lemma add_file_length directory name :
  (length (add_file directory name) <= S (length directory))%nat.
Proof.
  unfold add_file. destruct (existsb _ _); [lia|].
  rewrite length_app. simpl. lia.
Qed.

Lemma fold_add_file_length names : forall directory,
  (length (fold_left add_file names directory) <= length directory + length names)%nat.
Proof.
  induction names as [|n names IH]; simpl; intros directory; [lia|].
  specialize (IH (add_file directory n)).
  assert (H := add_file_length directory n). lia.
Qed.

Let run := LabelBalancer cfg formatted_date root_dir DATASET_NAME DEST_FOLDER
                         listing imread uniform dest0.
Let c1 := category_1_count listing.
Let c2 := category_2_count listing.

(** X14: a run completes exactly when category 1 is non-empty, not larger
    than category 2, and the deficit is at most
    [count(category_1) * TOTAL_MULTIPLIER]; every other input ends in the
    abort or in an exception. *)
Theorem X14_completes_exactly_when :
  (exists out, run = Completed out) <->
  (0 < c1 /\ c1 <= c2 /\ c2 - c1 <= c1 * TOTAL_MULTIPLIER cfg).
Proof.
  subst run c1 c2. unfold LabelBalancer.
  destruct (Z.gtb_spec (category_1_count listing) (category_2_count listing)) as [Hgt|Hle].
  { split; [|lia]. intros [out H].
    destruct (_ <? _); [discriminate|].
    destruct (complement_probabilities _ _); discriminate. }
  destruct (Z.ltb_spec (category_1_count listing * TOTAL_MULTIPLIER cfg)
                       (category_2_count listing - category_1_count listing)) as [Hab|Hok].
  { split; [intros [out H]; discriminate|lia]. }
  destruct category_counts_nonneg as [H1 _].
  destruct (Z.eq_dec (category_1_count listing) 0) as [E|E].
  - assert (Hz := complement_probabilities_zero (count_split (category_1_list listing))).
    rewrite <- E in Hz. rewrite Hz.
    split; [intros [out H]; discriminate|lia].
  - destruct (category_1_probabilities ltac:(lia)) as [p ->].
    split; [lia|eauto].
Qed.

(** X15: when the category to be topped up holds no image and the gate is
    passed, the run ends with a division by zero, after the originals have
    been copied; this is in particular what happens on a dataset without
    any image. *)
Theorem X15_empty_deficient_category_divides_by_zero :
  (if c1 >? c2 then c2 else c1) = 0 ->
  (c1 * TOTAL_MULTIPLIER cfg <? Z.abs (c1 - c2)) = false ->
  run = Crashed ZeroDivisionError (copy_all listing dest0).
Proof.
  subst run c1 c2. unfold LabelBalancer.
  destruct (Z.gtb_spec (category_1_count listing) (category_2_count listing)) as [Hgt|Hle];
    intros Hz Hg.
  - rewrite Z.abs_eq in Hg by lia. rewrite Hg, Hz.
    now rewrite complement_probabilities_zero.
  - replace (Z.abs (category_1_count listing - category_2_count listing))
      with (category_2_count listing - category_1_count listing) in Hg by lia.
    rewrite Hg, Hz. now rewrite complement_probabilities_zero.
Qed.

(** X16: no run ever writes an augmented file under the labels 4, 5, 6:
    however the run ends, each of these directories (and anything beyond
    the six labels) is either as it was found or holds what [Copy_dir]
    made of it. *)
Theorem X16_category_2_never_augmented (j : nat) :
  (3 <= j)%nat ->
  tree_of run j = dest0 j \/ tree_of run j = Copy_dir (listing j) (dest0 j).
Proof.
  intros Hj. subst run c1 c2. unfold LabelBalancer.
  assert (Hcopy : copy_all listing dest0 j = dest0 j \/
                  copy_all listing dest0 j = Copy_dir (listing j) (dest0 j))
    by (rewrite copy_all_at; destruct (j <? 6)%nat; auto).
  destruct (_ >? _); (destruct (_ <? _); [now left|]);
    destruct (complement_probabilities _ _); cbn [tree_of]; auto.
  unfold tally. rewrite augment_labels_at.
  destruct (Nat.ltb_spec j 3); [lia|exact Hcopy].
Qed.

(** X17: a completed run into an empty destination never makes category
    1 larger than category 2: the output tree holds under the labels 4, 5,
    6 exactly the original images, and under the labels 1, 2, 3 at most as
    many images as that. *)
Theorem X17_completed_run_never_overshoots (out : Tree) :
  (forall i, NoDup (listing i)) ->
  LabelBalancer cfg formatted_date root_dir DATASET_NAME DEST_FOLDER listing imread uniform
                empty_tree = Completed out ->
  category_2_size out = c2 /\ category_1_size out <= category_2_size out.
Proof.
  intros Hnd Hrun. subst c1 c2. unfold LabelBalancer in Hrun.
  destruct (Z.gtb_spec (category_1_count listing) (category_2_count listing)) as [Hgt|Hle].
  { destruct (_ <? _); [discriminate|].
    destruct (complement_probabilities _ _); discriminate. }
  destruct (_ <? _); [discriminate|].
  destruct (complement_probabilities _ _) as [p|e]; [|discriminate].
  cbv zeta in Hrun. inversion Hrun as [Hout]. clear Hrun.
  set (sample := random_choice _ p uniform) in *.
  assert (Hsum := tally_sum uniform
                    (category_2_count listing - category_1_count listing) p ltac:(lia)).
  cbv zeta in Hsum. fold sample in Hsum.
  assert (Hlen : forall i, (i < 3)%nat ->
            (length (imwrite_all
                       (label_task cfg formatted_date root_dir DATASET_NAME DEST_FOLDER
                                   listing imread 0 (tally sample) i)
                       (Copy_dir (listing i) [])) <=
             length (listing i) + Z.to_nat (nth i (tally sample) 0%Z))%nat).
  { intros i Hi. rewrite Copy_dir_empty by apply Hnd. unfold imwrite_all.
    eapply Nat.le_trans; [apply fold_add_file_length|].
    rewrite length_map. apply Nat.add_le_mono_l.
    unfold label_task. rewrite DataAugmentation_prefix. apply firstn_le_length. }
  assert (L0 := Hlen 0%nat ltac:(lia)).
  assert (L1 := Hlen 1%nat ltac:(lia)).
  assert (L2 := Hlen 2%nat ltac:(lia)).
  unfold category_1_size, category_2_size, tally in *.
  rewrite !augment_labels_at, !copy_all_at in *. cbn [Nat.ltb Nat.leb nth] in *.
  unfold empty_tree in *. rewrite !Copy_dir_empty in * by apply Hnd.
  assert (H0 := count_nonneg sample 1).
  assert (H1 := count_nonneg sample 2).
  assert (H2 := count_nonneg sample 3).
  rewrite category_1_count_sum, category_2_count_sum in *.
  lia.
Qed.

(** X18: on a dataset whose two categories already hold the same positive
    number of images the run completes and adds nothing: the destination
    holds exactly what the copy of the six label directories put there. *)
Theorem X18_balanced_input_is_only_copied :
  0 <= TOTAL_MULTIPLIER cfg -> c1 = c2 -> 0 < c1 ->
  exists out, run = Completed out /\ forall j, out j = copy_all listing dest0 j.
Proof.
  subst run c1 c2. intros Htm Heq Hpos. unfold LabelBalancer.
  destruct (Z.gtb_spec (category_1_count listing) (category_2_count listing)); [lia|].
  destruct (Z.ltb_spec (category_1_count listing * TOTAL_MULTIPLIER cfg)
                       (category_2_count listing - category_1_count listing)); [nia|].
  destruct (category_1_probabilities Hpos) as [p ->].
  eexists. split; [reflexivity|]. intros j.
  replace (category_2_count listing - category_1_count listing) with 0 by lia.
  destruct p as [[p1 p2] p3]. cbn [random_choice range Z.to_nat seq map tally].
  unfold tally. rewrite augment_labels_at. destruct (j <? 3)%nat; [|reflexivity].
  unfold label_task. rewrite DataAugmentation_prefix.
  replace (nth j [count [] 1; count [] 2; count [] 3] 0) with 0
    by (do 3 (destruct j as [|j]; [reflexivity|]); destruct j; reflexivity).
  reflexivity.
Qed.

End BalancerMore.

(** ** label_balancer.py: the sampling weights *)

Section WeightsMore.

Lemma choose_skips_zero (p0 p1 p2 u : Q) :
  (0 <= u)%Q -> (u < 1)%Q -> (p0 + p1 + p2 == 1)%Q ->
  ((p0 == 0)%Q -> choose p0 p1 p2 u <> 1) /\
  ((p1 == 0)%Q -> choose p0 p1 p2 u <> 2) /\
  ((p2 == 0)%Q -> choose p0 p1 p2 u <> 3).
Proof.
  intros Hu0 Hu1 Hs. unfold choose.
  destruct (Qle_bool p0 u) eqn:E0; destruct (Qle_bool (p0 + p1) u) eqn:E1;
    repeat split; intros Hz; try discriminate.
  - apply Qle_bool_iff in E1. lra.
  - apply Qle_bool_iff in E0.
    assert (H : (p0 + p1 <= u)%Q) by lra.
    apply Qle_bool_iff in H. congruence.
  - assert (H : (p0 <= u)%Q) by lra.
    apply Qle_bool_iff in H. congruence.
  - assert (H : (p0 <= u)%Q) by lra.
    apply Qle_bool_iff in H. congruence.
Qed.

Lemma count_zero (sample : list Z) (x : Z) :
  Forall (fun y => y <> x) sample -> count sample x = 0.
Proof.
  intros H. unfold count.
  rewrite (proj1 (count_occ_not_In Z.eq_dec sample x)); [reflexivity|].
  intros Hin. rewrite Forall_forall in H. now apply (H x).
Qed.

End WeightsMore.

(** ** label_balancer.py: a category held by a single label *)

Section SingleLabel.
Variable cfg : Config.
Variable formatted_date : string.
Variables root_dir DATASET_NAME DEST_FOLDER : string.
Variable listing : nat -> list string.
Variable imread : Path -> option Utils.Image.
Variable uniform : nat -> Q.
Variable dest0 : Tree.

Hypothesis uniform_unit : forall j, (0 <= uniform j)%Q /\ (uniform j < 1)%Q.

Lemma sample_avoids (n : Z) (p0 p1 p2 : Q) (x : Z) :
  (p0 + p1 + p2 == 1)%Q ->
  (x = 1 /\ (p0 == 0)%Q) \/ (x = 2 /\ (p1 == 0)%Q) \/ (x = 3 /\ (p2 == 0)%Q) ->
  count (random_choice n (p0, p1, p2) uniform) x = 0.
Proof.
  intros Hs Hx. apply count_zero. unfold random_choice.
  apply Forall_forall. intros y Hy. apply in_map_iff in Hy.
  destruct Hy as (j & <- & _).
  destruct (uniform_unit j) as [Hu0 Hu1].
  destruct (choose_skips_zero p0 p1 p2 (uniform j) Hu0 Hu1 Hs) as (A & B & C).
  destruct Hx as [[-> Hz]|[[-> Hz]|[-> Hz]]]; auto.
Qed.

Lemma full_label_weight (t : Z) (W : Q) :
  0 < t -> (W == 2)%Q -> ((1 - inject_Z t / inject_Z t) / W == 0)%Q.
Proof.
  intros Ht HW. rewrite HW.
  assert (Hne : ~ (inject_Z t == 0)%Q).
  { change 0%Q with (inject_Z 0). rewrite inject_Z_injective. lia. }
  field. exact Hne.
Qed.

Lemma weights_sum_one (a b c : Q) :
  ~ (a + b + c == 0)%Q ->
  (a / (a + b + c) + b / (a + b + c) + c / (a + b + c) == 1)%Q.
Proof. intros H. field. exact H. Qed.

Lemma zero_weight_allocation (n0 n1 n2 d : Z) (p : Q * Q * Q) :
  0 < n0 + n1 + n2 ->
  complement_probabilities (n0, n1, n2) (n0 + n1 + n2) = Ok p ->
  (n0 = n0 + n1 + n2 -> count (random_choice d p uniform) 1 = 0) /\
  (n1 = n0 + n1 + n2 -> count (random_choice d p uniform) 2 = 0) /\
  (n2 = n0 + n1 + n2 -> count (random_choice d p uniform) 3 = 0).
Proof.
  intros Ht Hp. rewrite (complement_probabilities_ok n0 n1 n2 Ht) in Hp.
  cbv zeta in Hp. inversion Hp as [Ep]. clear Hp Ep.
  assert (HT := complement_total n0 n1 n2 Ht). cbv zeta in HT.
  assert (HW : ~ ((1 - inject_Z n0 / inject_Z (n0 + n1 + n2)) +
                  (1 - inject_Z n1 / inject_Z (n0 + n1 + n2)) +
                  (1 - inject_Z n2 / inject_Z (n0 + n1 + n2)) == 0)%Q)
    by (rewrite HT; discriminate).
  assert (Hs := weights_sum_one _ _ _ HW).
  repeat split; intros Hall; apply sample_avoids; try exact Hs.
  - left. split; [reflexivity|]. rewrite Hall at 1. now apply full_label_weight.
  - right; left. split; [reflexivity|]. rewrite Hall at 1. now apply full_label_weight.
  - right; right. split; [reflexivity|]. rewrite Hall at 1. now apply full_label_weight.
Qed.

(** X20: when every image of category 1 sits under one of its three
    labels (the other two being empty), a completed run adds no file at
    all: the populated label has sampling probability 0, so the whole
    allocation goes to the empty labels, which have nothing to augment.
    The destination holds the copied originals only, whatever the deficit
    and whatever the uniform draws in [0, 1) are. *)
Theorem X20_single_label_category_gets_nothing (out : Tree) :
  (forall i, (i < 3)%nat ->
             listing i = [] \/
             Z.of_nat (length (listing i)) = category_1_count listing) ->
  LabelBalancer cfg formatted_date root_dir DATASET_NAME DEST_FOLDER listing imread uniform dest0
  = Completed out ->
  forall j, out j = copy_all listing dest0 j.
Proof.
  intros Hone Hrun j. unfold LabelBalancer in Hrun.
  destruct (Z.gtb_spec (category_1_count listing) (category_2_count listing)) as [Hgt|Hle].
  { destruct (_ <? _); [discriminate|].
    destruct (complement_probabilities _ _); discriminate. }
  destruct (_ <? _); [discriminate|].
  destruct (complement_probabilities _ _) as [p|e] eqn:Ep; [|discriminate].
  cbv zeta in Hrun. inversion Hrun as [Hout]. clear Hrun Hout.
  unfold count_split, category_1_list in Ep. cbn [nth] in Ep.
  rewrite category_1_count_sum in *.
  assert (Ht : 0 < Z.of_nat (length (listing 0%nat)) + Z.of_nat (length (listing 1%nat)) +
                   Z.of_nat (length (listing 2%nat))).
  { destruct (Z.eq_dec (Z.of_nat (length (listing 0%nat)) +
                        Z.of_nat (length (listing 1%nat)) +
                        Z.of_nat (length (listing 2%nat))) 0) as [E|E]; [|lia].
    rewrite E in Ep. rewrite complement_probabilities_zero in Ep. discriminate. }
  destruct (zero_weight_allocation _ _ _
              (category_2_count listing -
               (Z.of_nat (length (listing 0%nat)) + Z.of_nat (length (listing 1%nat)) +
                Z.of_nat (length (listing 2%nat)))) p Ht Ep) as (A0 & A1 & A2).
  unfold tally. rewrite augment_labels_at.
  destruct (Nat.ltb_spec j 3) as [Hj|Hj]; [|reflexivity].
  unfold label_task. rewrite DataAugmentation_prefix, Nat.add_0_r.
  destruct (Hone j Hj) as [Hempty|Hall].
  - rewrite Hempty. cbn [schedule count_files fold_left SortDict flat_map].
    now rewrite firstn_nil.
  - replace (nth j _ 0) with 0; [reflexivity|]. symmetry.
    destruct j as [|[|[|j]]]; [| | |lia]; cbn [nth]; auto.
Qed.

End SingleLabel.

(** ** label_balancer.py: how the scheduler ends *)

Section SchedulerEnd.
Variable cfg : Config.
Variable imread : Path -> option Utils.Image.
Variable formatted_date : string.
Variables label_dir dest_dir label : string.
Variable target : Z.

(** How a pass ends, from the target, the length of the plan and the
    number of its leading variants that can be produced. *)
Lemma walk_exit xs : forall W,
  let a := target - Z.of_nat (length W) in
  let g := Z.of_nat (length (good_prefix (produced imread) xs)) in
  let n := Z.of_nat (length xs) in
  (fst (walk target (attempt imread) xs W) = Stopped <-> Z.max 0 a <= g /\ Z.max 0 a < n) /\
  ((exists e, fst (walk target (attempt imread) xs W) = Failed e) <-> g < n /\ g < a).
Proof.
  induction xs as [|x xs IH]; intros W; cbn zeta; cbn [walk good_prefix length].
  - cbn [fst]. split; split.
    + discriminate.
    + lia.
    + intros [e He]. discriminate.
    + lia.
  - destruct (Z.gtb_spec (1 + Z.of_nat (length W)) target) as [Hc|Hc]; cbn [fst].
    + split; split.
      * intros _. lia.
      * intros _. reflexivity.
      * intros [e He]. discriminate.
      * intros [_ H]. exfalso. lia.
    + assert (Hp : produced imread x =
                   match attempt imread x with Ok _ => true | Raise _ => false end)
        by reflexivity.
      rewrite Hp. clear Hp. destruct (attempt imread x) as [u|e].
      * specialize (IH (W ++ [x])). cbn zeta in IH. rewrite length_app in IH.
        cbn [length] in IH |- *. destruct IH as [IH1 IH2].
        split; [rewrite IH1|rewrite IH2]; lia.
      * cbn [fst length]. split; split.
        -- discriminate.
        -- lia.
        -- intros _. lia.
        -- intros _. eauto.
Qed.

Lemma raised_failed {S : Type} (r : Ctl S) : raised r <-> exists e, exit_of r = Failed e.
Proof.
  destruct r; cbn; split; try tauto; try (intros [e' H]; discriminate). eauto.
Qed.

(** X21: how the scheduler ends.  Let [available] be the number of
    variants of the schedule, [2 * MULTIPLIER] per listed image, and
    [producible] the number of its leading variants that can be produced.
    The scheduler leaves by its [return] (the one that reports that enough
    images were reached) exactly when the target is at most [producible]
    and below [available]; it is ended by an exception exactly when a
    variant cannot be produced and the target reaches beyond it; otherwise
    it runs its loops to the end, having written every variant.  When
    every variant can be produced there is no exception, and the [return]
    is taken exactly when there is a variant and the target is below
    [available]; a target equal to that number runs the loops to the
    end. *)
Theorem X21_returns_early_exactly_when (image_list : list string) :
  let run := DataAugmentation_loop cfg imread formatted_date target label_dir dest_dir label
                                   image_list in
  let plan := schedule cfg formatted_date label_dir dest_dir label image_list in
  let available := Z.of_nat (length image_list) * Z.max 0 (MULTIPLIER cfg * 2) in
  let producible := Z.of_nat (length (good_prefix (produced imread) plan)) in
  producible <= available /\
  (returned run <-> Z.max 0 target <= producible /\ Z.max 0 target < available) /\
  (raised run <-> producible < available /\ producible < target) /\
  (~ returned run -> ~ raised run -> written (final run) = plan) /\
  (Forall (fun w => produced imread w = true) plan ->
   (returned run <-> 0 < available /\ target < available) /\ ~ raised run).
Proof.
  cbn zeta.
  assert (Hlen := schedule_length cfg formatted_date label_dir dest_dir label image_list).
  assert (Hpre := DataAugmentation_prefix cfg imread formatted_date label_dir dest_dir label
                    target image_list).
  destruct (DataAugmentation_loop_walk cfg imread formatted_date label_dir dest_dir label
              target image_list) as [Hw _].
  unfold DataAugmentation in Hpre.
  set (run := DataAugmentation_loop cfg imread formatted_date target label_dir dest_dir label
                                    image_list) in *.
  set (plan := schedule cfg formatted_date label_dir dest_dir label image_list) in *.
  assert (Hg := good_prefix_length (produced imread) plan).
  assert (Hall := good_prefix_firstn (produced imread) plan).
  set (g := length (good_prefix (produced imread) plan)) in *.
  assert (Hav : Z.of_nat (length plan) =
                Z.of_nat (length image_list) * Z.max 0 (MULTIPLIER cfg * 2))
    by (rewrite Hlen, Nat2Z.inj_mul; lia).
  destruct (walk_exit plan []) as [Hstop Hfail]. cbn zeta in Hstop, Hfail.
  cbn [length] in Hstop, Hfail. rewrite Z.sub_0_r in Hstop, Hfail.
  rewrite <- Hw in Hstop, Hfail. cbn [fst] in Hstop, Hfail. fold g in Hstop, Hfail.
  rewrite <- returned_stopped in Hstop. rewrite <- raised_failed in Hfail.
  rewrite <- Hav.
  split; [lia|]. split; [exact Hstop|]. split; [exact Hfail|]. split.
  - intros Hnr Hnf. rewrite Hpre, Hall.
    destruct (Z.lt_ge_cases (Z.of_nat g) (Z.of_nat (length plan))) as [Hlt|Hge].
    + exfalso. destruct (Z.lt_ge_cases (Z.of_nat g) target) as [H|H].
      * apply Hnf, Hfail. lia.
      * apply Hnr, Hstop. lia.
    + rewrite (firstn_all2 plan) by lia. apply firstn_all2.
      destruct (Z.lt_ge_cases (Z.max 0 target) (Z.of_nat (length plan))) as [H|H]; [|lia].
      exfalso. apply Hnr, Hstop. lia.
  - intros Hok. assert (E := good_prefix_all (produced imread) plan Hok).
    assert (Eg : g = length plan) by (unfold g; now rewrite E).
    rewrite Hstop, Hfail, Eg. split; lia.
Qed.

End SchedulerEnd.

(** ** label_balancer.py: a scheduler task ended by an exception *)

Section ExceptionExit.
Variable cfg : Config.
Variable imread : Path -> option Utils.Image.
Variable formatted_date : string.

(** The schedule, when it is not empty, starts with the plain variant of
    a listed image at the angle [THETA] and the zoom factor [FACT]. *)
Lemma schedule_head (label_dir dest_dir label : string) (image_list : list string) :
  schedule cfg formatted_date label_dir dest_dir label image_list = [] \/
  exists f rest,
    In f image_list /\
    schedule cfg formatted_date label_dir dest_dir label image_list =
    mkWrite (path_join dest_dir
               (new_file_name formatted_date label (path_join label_dir f) 0 0))
            (path_join label_dir f) (THETA cfg) (FACT cfg) false :: rest.
Proof.
  destruct (Z.to_nat (MULTIPLIER cfg * 2)) as [|n] eqn:En.
  { left. apply length_zero_iff_nil. rewrite schedule_length, En. lia. }
  destruct image_list as [|f0 files]; [left; reflexivity|]. right.
  unfold schedule.
  assert (G := count_files_grouped label_dir (f0 :: files)).
  destruct (count_files label_dir (f0 :: files)) as [site_ids_count site_path].
  assert (Hk := g_cover _ _ _ _ G f0 (or_introl eq_refl)).
  assert (Hperm := SortDict_perm site_ids_count).
  destruct (SortDict site_ids_count) as [|[k c] es].
  { apply Permutation_sym, Permutation_nil in Hperm.
    rewrite (g_counts _ _ _ _ G) in Hperm. unfold lengths in Hperm.
    destruct site_path; [contradiction|discriminate]. }
  assert (He : In (k, c) site_ids_count)
    by (eapply Permutation_in; [symmetry; exact Hperm|now left]).
  destruct (grouped_lookup _ _ _ _ _ _ G He) as [Hp _].
  assert (Hne := grouped_lookup_nonempty _ _ _ _ _ _ G He).
  cbn [flat_map fst]. rewrite Hp in *.
  destruct (site_files label_dir k (f0 :: files)) as [|site sites] eqn:Es; [contradiction|].
  assert (Hsite : In site (site_files label_dir k (f0 :: files)))
    by (rewrite Es; now left).
  unfold site_files in Hsite. apply in_map_iff in Hsite.
  destruct Hsite as (f & <- & Hf). apply filter_In in Hf. destruct Hf as [Hf _].
  exists f. eexists. split; [exact Hf|].
  cbn [images_variants]. unfold image_variants, range. rewrite En.
  cbn [seq variants_from]. unfold emit. cbn [switch theta fact Z.eqb Pos.eqb app].
  rewrite <- !app_assoc. cbn [app]. reflexivity.
Qed.

Lemma good_prefix_head_fails (ok : Write -> bool) (x : Write) (xs : list Write) :
  ok x = false -> good_prefix ok (x :: xs) = [].
Proof. intros H. cbn [good_prefix]. now rewrite H. Qed.

Section NonpositiveZoom.
Variable zoom : Q.
Hypothesis FACT_value : float_value (FACT cfg) = Some zoom.
Hypothesis FACT_nonpositive : (zoom <= 0)%Q.
Hypothesis imread_shape :
  forall p img, imread p = Some img -> 0 <= Utils.rows img /\ 0 <= Utils.cols img.

Lemma first_variant_not_produced (dst site : Path) :
  produced imread (mkWrite dst site (THETA cfg) (FACT cfg) false) = false.
Proof.
  unfold produced, attempt, Data_augmentation_call. cbn [w_src w_theta w_fact w_flipped].
  destruct (imread site) as [img|] eqn:Ei; [|reflexivity].
  destruct (imread_shape _ _ Ei) as [Hr Hc].
  rewrite FACT_value, Data_augmentation_unzoomed by assumption. reflexivity.
Qed.

Lemma nothing_producible (label_dir dest_dir label : string) (image_list : list string) :
  good_prefix (produced imread)
              (schedule cfg formatted_date label_dir dest_dir label image_list) = [].
Proof.
  destruct (schedule_head label_dir dest_dir label image_list) as [->|(f & rest & _ & ->)];
    [reflexivity|].
  apply good_prefix_head_fails, first_variant_not_produced.
Qed.

Lemma nothing_written (target : Z) (label_dir dest_dir label : string)
      (image_list : list string) :
  DataAugmentation cfg imread formatted_date target label_dir dest_dir label image_list = [].
Proof. rewrite DataAugmentation_prefix, nothing_producible. apply firstn_nil. Qed.

End NonpositiveZoom.

(** X23: with a zoom factor [FACT] of zero or less (as [--fact 0] gives),
    no variant can be produced: [cv.resize] raises at the first variant,
    or the file does not decode.  The scheduler then writes no file,
    whatever the target and the listing, and when there is a variant to
    produce and the target is positive it is ended by that exception.
    [LabelBalancer] catches the exceptions of its tasks: a run that gets
    to the augmentation still completes, and the destination holds the
    copied originals and nothing else. *)
Theorem X23_nonpositive_zoom_writes_nothing (zoom : Q) :
  float_value (FACT cfg) = Some zoom -> (zoom <= 0)%Q ->
  (forall p img, imread p = Some img -> 0 <= Utils.rows img /\ 0 <= Utils.cols img) ->
  (forall (target : Z) (label_dir dest_dir label : string) (image_list : list string),
      DataAugmentation cfg imread formatted_date target label_dir dest_dir label
                       image_list = [] /\
      (0 < target -> image_list <> [] -> 0 < MULTIPLIER cfg ->
       raised (DataAugmentation_loop cfg imread formatted_date target label_dir dest_dir
                                     label image_list))) /\
  (forall (root_dir DATASET_NAME DEST_FOLDER : string) (listing : nat -> list string)
          (uniform : nat -> Q) (dest0 out : Tree),
      LabelBalancer cfg formatted_date root_dir DATASET_NAME DEST_FOLDER listing imread
                    uniform dest0 = Completed out ->
      forall j, out j = copy_all listing dest0 j).
Proof.
  intros Hv Hz Hshape. split.
  - intros target label_dir dest_dir label image_list.
    split; [now apply (nothing_written zoom)|].
    intros Ht Hne Hm. apply raised_failed.
    destruct (DataAugmentation_loop_walk cfg imread formatted_date label_dir dest_dir label
                target image_list) as [Hw _].
    destruct (walk_exit imread target
                (schedule cfg formatted_date label_dir dest_dir label image_list) [])
      as [_ Hfail].
    cbn zeta in Hfail. rewrite <- Hw in Hfail. cbn [fst length] in Hfail.
    apply Hfail. rewrite (nothing_producible zoom Hv Hz Hshape), schedule_length.
    cbn [length]. destruct image_list; [contradiction|]. cbn [length]. nia.
  - intros root_dir DATASET_NAME DEST_FOLDER listing uniform dest0 out Hrun j.
    unfold LabelBalancer in Hrun.
    destruct (_ >? _).
    { destruct (_ <? _); [discriminate|].
      destruct (complement_probabilities _ _); discriminate. }
    destruct (_ <? _); [discriminate|].
    destruct (complement_probabilities _ _) as [p|e]; [|discriminate].
    cbv zeta in Hrun. inversion Hrun as [Hout]. clear Hrun Hout.
    unfold tally. rewrite augment_labels_at. destruct (j <? 3)%nat; [|reflexivity].
    unfold label_task. rewrite (nothing_written zoom Hv Hz Hshape). reflexivity.
Qed.

End ExceptionExit.

(** ** Instances *)

Lemma cycle_draws_unit (j : nat) : (0 <= cycle_draws j)%Q /\ (cycle_draws j < 1)%Q.
Proof.
  unfold cycle_draws, Qle, Qlt. cbn [Qnum Qden].
  assert (H := Nat.mod_upper_bound j 10 ltac:(discriminate)). lia.
Qed.

Lemma X15_empty_deficient_category_divides_by_zero_witness :
  LabelBalancer default_config "110326" "/data" "flow_600_200" "balanced_data"
                empty_dataset all_decodable cycle_draws empty_tree
  = Crashed ZeroDivisionError (copy_all empty_dataset empty_tree).
Proof.
  apply (X15_empty_deficient_category_divides_by_zero default_config "110326" "/data"
           "flow_600_200" "balanced_data" empty_dataset all_decodable cycle_draws empty_tree);
    reflexivity.
Defined.

Lemma X16_category_2_never_augmented_witness :
  tree_of (LabelBalancer default_config "110326" "/data" "flow_600_200" "balanced_data"
                         second_category_larger all_decodable cycle_draws empty_tree) 3%nat
  = empty_tree 3%nat \/
  tree_of (LabelBalancer default_config "110326" "/data" "flow_600_200" "balanced_data"
                         second_category_larger all_decodable cycle_draws empty_tree) 3%nat
  = Copy_dir (second_category_larger 3%nat) (empty_tree 3%nat).
Proof.
  apply (X16_category_2_never_augmented default_config "110326" "/data" "flow_600_200"
           "balanced_data" second_category_larger all_decodable cycle_draws empty_tree 3).
  lia.
Defined.

Lemma X17_completed_run_never_overshoots_witness :
  exists out,
    LabelBalancer default_config "110326" "/data" "flow_600_200" "balanced_data"
                  empty_first_label all_decodable cycle_draws empty_tree = Completed out /\
    category_2_size out = category_2_count empty_first_label /\
    category_1_size out <= category_2_size out.
Proof.
  eexists. split; [reflexivity|].
  apply (X17_completed_run_never_overshoots default_config "110326" "/data"
           "flow_600_200" "balanced_data" empty_first_label all_decodable cycle_draws).
  - intros i. do 4 (destruct i as [|i]; [apply NoDup_by_nodup; vm_compute; reflexivity|]).
    constructor.
  - reflexivity.
Defined.

Lemma X18_balanced_input_is_only_copied_witness :
  exists out,
    LabelBalancer default_config "110326" "/data" "flow_600_200" "balanced_data"
                  balanced_categories all_decodable cycle_draws empty_tree = Completed out /\
    forall j, out j = copy_all balanced_categories empty_tree j.
Proof.
  apply (X18_balanced_input_is_only_copied default_config "110326" "/data"
           "flow_600_200" "balanced_data" balanced_categories all_decodable cycle_draws empty_tree).
  - vm_compute. discriminate.
  - reflexivity.
  - reflexivity.
Defined.

Lemma X20_single_label_category_gets_nothing_witness :
  exists out,
    LabelBalancer default_config "110326" "/data" "flow_600_200" "balanced_data"
                  single_label_category all_decodable cycle_draws empty_tree = Completed out /\
    forall j, out j = copy_all single_label_category empty_tree j.
Proof.
  eexists. split; [reflexivity|].
  apply (X20_single_label_category_gets_nothing default_config "110326" "/data"
           "flow_600_200" "balanced_data" single_label_category all_decodable cycle_draws empty_tree
           cycle_draws_unit).
  - intros i Hi. destruct i as [|[|[|i]]]; [right; reflexivity|left; reflexivity
                                           |left; reflexivity|lia].
  - reflexivity.
Defined.

Lemma X21_returns_early_exactly_when_witness :
  returned (DataAugmentation_loop default_config all_decodable "110326" 5 "flow_600_200/1"
              "balanced_data/1" "L1" ["23_a.JPG"; "7_a.JPG"]%string) /\
  ~ returned (DataAugmentation_loop default_config all_decodable "110326" 24
                "flow_600_200/1" "balanced_data/1" "L1" ["23_a.JPG"; "7_a.JPG"]%string) /\
  raised (DataAugmentation_loop default_config none_decodable "110326" 5 "flow_600_200/1"
            "balanced_data/1" "L1" ["23_a.JPG"; "7_a.JPG"]%string).
Proof.
  assert (Hok : Forall (fun w => produced all_decodable w = true)
                       (schedule default_config "110326" "flow_600_200/1" "balanced_data/1"
                                 "L1" ["23_a.JPG"; "7_a.JPG"]%string))
    by (apply produced_by_check; vm_compute; reflexivity).
  split; [|split].
  - destruct (X21_returns_early_exactly_when default_config all_decodable "110326"
                "flow_600_200/1" "balanced_data/1" "L1" 5
                ["23_a.JPG"; "7_a.JPG"]%string) as (_ & _ & _ & _ & H).
    destruct (H Hok) as [[_ Hback] _]. apply Hback.
    split; vm_compute; reflexivity.
  - destruct (X21_returns_early_exactly_when default_config all_decodable "110326"
                "flow_600_200/1" "balanced_data/1" "L1" 24
                ["23_a.JPG"; "7_a.JPG"]%string) as (_ & _ & _ & _ & H).
    destruct (H Hok) as [[Hforth _] _]. intros Hr.
    destruct (Hforth Hr) as [_ Hlt]. vm_compute in Hlt. discriminate.
  - destruct (X21_returns_early_exactly_when default_config none_decodable "110326"
                "flow_600_200/1" "balanced_data/1" "L1" 5
                ["23_a.JPG"; "7_a.JPG"]%string) as (_ & _ & [_ Hback] & _).
    apply Hback. split; vm_compute; reflexivity.
Defined.

Lemma X23_nonpositive_zoom_writes_nothing_witness :
  raised (DataAugmentation_loop (cli_config None (Some 0) None) all_decodable "110326" 1
            "flow_600_200/1" "balanced_data/1" "L1" ["23_a.JPG"]%string) /\
  exists out,
    LabelBalancer (cli_config None (Some 0) None) "110326" "/data" "flow_600_200"
                  "balanced_data" two_against_three all_decodable cycle_draws empty_tree
    = Completed out /\
    allocation two_against_three cycle_draws = [1; 0; 0] /\
    category_1_size out = 2 /\ category_2_size out = 3.
Proof.
  destruct (X23_nonpositive_zoom_writes_nothing (cli_config None (Some 0) None)
              all_decodable "110326" 0%Q) as [Htask Hrun].
  - reflexivity.
  - apply Qle_refl.
  - intros p img E. inversion E. cbn [Utils.rows Utils.cols]. lia.
  - split.
    + apply (Htask 1 "flow_600_200/1" "balanced_data/1" "L1" ["23_a.JPG"])%string;
        [lia|discriminate|reflexivity].
    + eexists. split; [reflexivity|]. split; [vm_compute; reflexivity|].
      unfold category_1_size, category_2_size.
      rewrite !(Hrun "/data" "flow_600_200" "balanced_data" two_against_three cycle_draws
                     empty_tree _ eq_refl)%string.
      split; vm_compute; reflexivity.
Defined.
